(** * dfn_lib/dfn_utils.py: a shallow embedding and its verification

    The module is a set of independent helpers of the Desert Fireball
    Network pipeline: [time_factory] and [round_to_nearest_n_seconds]
    (time normalisation), [resolve_glob], [getDfnstationConfigFile] and
    [find_log_file] (file discovery), [search_dfn_operation_log] (log
    parsing).

    Python values are embedded as follows.
    - [str] is [string]; a character is a code point below 256.
    - [int] is [Z]; [float] is IEEE binary64, carried by [spec_float] with
      [prec = 53] and [emax = 1024] and the operations of [SpecFloat].
    - a raised exception is the [Raise] case of [Result]; every exception
      keeps the message the source (or CPython) gives it.
    - objects with identity ([astropy.time.Time]) carry an object id; a
      computation that may build objects passes an allocation counter on.
    - [glob.glob], the [find] subprocess and [astropy] (the constructor of
      [Time], its [jd2] attribute and its subtraction) are outside this
      module: they are arguments of the functions that use them.  So is the
      file system: a path leads to a text, to a text whose reading fails
      part of the way, or to something [open] refuses. *)

From Stdlib Require Import ZArith Lia Ascii String SpecFloat.
From stdpp Require Import base option list sorting strings gmap.

Local Open Scope Z_scope.
#[local] Arguments String.append !_ _ / : simpl nomatch.

(** ** Exceptions and results *)

Inductive PyExc : Type :=
| TypeError (msg : string)
| KeyError (msg : string)
| IndexError (msg : string)
| ValueError (msg : string)
| OverflowError (msg : string)
| ZeroDivisionError (msg : string)
| FileNotFoundError (msg : string)
| UnboundLocalError (msg : string)
| IsADirectoryError (msg : string)
| PermissionError (msg : string)
| UnicodeDecodeError (msg : string)
| CalledProcessError (returncode : Z).

Inductive Result (A : Type) : Type :=
| Ok (a : A)
| Raise (e : PyExc).
Arguments Ok {A} a.
Arguments Raise {A} e.

#[export] Instance Result_ret : MRet Result := fun _ a => Ok a.
#[export] Instance Result_bind : MBind Result := fun _ _ k r =>
  match r with
  | Ok a => k a
  | Raise e => Raise e
  end.

Definition is_ok {A} (r : Result A) : bool :=
  match r with Ok _ => true | Raise _ => false end.

(** ** Python string operations *)

Module Str.

Definition len (s : string) : nat := String.length s.

(** [s.startswith(p)] *)
Fixpoint startswith (s p : string) {struct p} : bool :=
  match p, s with
  | EmptyString, _ => true
  | String _ _, EmptyString => false
  | String a p', String b s' => Ascii.eqb a b && startswith s' p'
  end.

(** [s[n:]] *)
Fixpoint drop (n : nat) (s : string) : string :=
  match n, s with
  | O, _ => s
  | S _, EmptyString => EmptyString
  | S n', String _ s' => drop n' s'
  end.

(** [sub in s] *)
Fixpoint contains (sub s : string) : bool :=
  startswith s sub ||
  match s with
  | EmptyString => false
  | String _ s' => contains sub s'
  end.

(** [s.partition(sep)] without its middle component: the text before and
    after the first occurrence of [sep], or [None] when there is none. *)
Fixpoint partition (sep s : string) : option (string * string) :=
  if startswith s sep then Some (EmptyString, drop (len sep) s)
  else match s with
       | EmptyString => None
       | String c s' =>
           match partition sep s' with
           | Some (b, a) => Some (String c b, a)
           | None => None
           end
       end.

(** [s.split(sep)] for a non-empty [sep]: cut at the occurrences of
    [sep] found from left to right, none overlapping the one before. *)
Fixpoint split_fuel (fuel : nat) (sep s : string) : list string :=
  match fuel with
  | O => [s]
  | S fuel' =>
      match partition sep s with
      | None => [s]
      | Some (b, a) => b :: split_fuel fuel' sep a
      end
  end.

Definition split (s sep : string) : Result (list string) :=
  match sep with
  | EmptyString => Raise (ValueError "empty separator")
  | String _ _ => Ok (split_fuel (S (len s)) sep s)
  end.

(** [str.isspace] on one code point below 256. *)
Definition is_space (c : ascii) : bool :=
  let n := N_of_ascii c in
  ((9 <=? n) && (n <=? 13) || (28 <=? n) && (n <=? 32)
   || (n =? 133) || (n =? 160))%N.

(** [s.rstrip()] *)
Fixpoint rstrip (s : string) : string :=
  match s with
  | EmptyString => EmptyString
  | String c s' =>
      match rstrip s' with
      | EmptyString => if is_space c then EmptyString else String c EmptyString
      | r => String c r
      end
  end.

(** [s.endswith("/")] and the like, for a one-character suffix *)
Fixpoint ends_with_char (s : string) (c : ascii) : bool :=
  match s with
  | EmptyString => false
  | String a EmptyString => Ascii.eqb a c
  | String _ s' => ends_with_char s' c
  end.

(** [l[i]] on a list *)
Definition getitem {A} (l : list A) (i : nat) : Result A :=
  match l !! i with
  | Some x => Ok x
  | None => Raise (IndexError "list index out of range")
  end.

End Str.

(** ** Python numbers *)

Module Num.

(** IEEE binary64 *)
Definition prec : Z := 53.
Definition emax : Z := 1024.
Definition float : Type := spec_float.

(** The float nearest to [n / d] (ties to even), for [0 <= n]: the
    correctly rounded quotient that [float("...")] and [int / int]
    compute. *)
Definition float_of_ratio (sign : bool) (n : Z) (d : positive) : float :=
  match n with
  | Zpos p =>
      let '(mz, ez, lz) := SFdiv_core_binary prec emax (Zpos p) 0 (Zpos d) 0 in
      binary_round_aux prec emax sign mz ez lz
  | _ => S754_zero sign
  end.

(** [float(n)] for an [int] *)
Definition float_of_int (n : Z) : Result float :=
  match binary_normalize prec emax n 0 false with
  | S754_infinity _ => Raise (OverflowError "int too large to convert to float")
  | f => Ok f
  end.

(** [int(f)]: truncation towards zero *)
Definition int_of_float (f : float) : Result Z :=
  match f with
  | S754_nan => Raise (ValueError "cannot convert float NaN to integer")
  | S754_infinity _ =>
      Raise (OverflowError "cannot convert float infinity to integer")
  | S754_zero _ => Ok 0
  | S754_finite s m e => Ok (cond_Zopp s (Z.shiftl (Zpos m) e))
  end.

(** [x / n] for a float [x] and an [int] [n] *)
Definition float_div_int (x : float) (n : Z) : Result float :=
  y ← float_of_int n;
  match y with
  | S754_zero _ => Raise (ZeroDivisionError "float division by zero")
  | _ => Ok (SFdiv prec emax x y)
  end.

(** [a / n] for two [int]s, [0 <= a], under true division *)
Definition int_truediv (a n : Z) : Result float :=
  match n with
  | Z0 => Raise (ZeroDivisionError "division by zero")
  | Zpos d => Ok (float_of_ratio false a d)
  | Zneg d => Ok (float_of_ratio true a d)
  end.

(** [round(f)]: the nearest integer, ties to even *)
Definition round (f : float) : Result Z :=
  match f with
  | S754_nan => Raise (ValueError "cannot convert float NaN to integer")
  | S754_infinity _ =>
      Raise (OverflowError "cannot convert float infinity to integer")
  | S754_zero _ => Ok 0
  | S754_finite s m e =>
      match e with
      | Zneg k =>
          let q := Z.shiftr (Zpos m) (Zpos k) in
          let r := Zpos m - Z.shiftl q (Zpos k) in
          let half := Z.shiftl 1 (Zpos k - 1) in
          let q' := match r ?= half with
                    | Lt => q
                    | Gt => q + 1
                    | Eq => if Z.even q then q else q + 1
                    end in
          Ok (cond_Zopp s q')
      | _ => Ok (cond_Zopp s (Z.shiftl (Zpos m) e))
      end
  end.

Definition digit_char (d : Z) : ascii := ascii_of_N (48 + Z.to_N d).

Fixpoint digits_fuel (fuel : nat) (n : Z) (acc : string) : string :=
  match fuel with
  | O => acc
  | S fuel' =>
      let acc' := String (digit_char (n mod 10)) acc in
      if n / 10 =? 0 then acc' else digits_fuel fuel' (n / 10) acc'
  end.

(** The decimal digits of [0 <= n], most significant first. *)
Definition digits (n : Z) : string :=
  digits_fuel (S (Z.to_nat (Z.log2 n))) n EmptyString.

(** [str(z)] for an [int] *)
Definition str_of_int (z : Z) : string :=
  if z <? 0 then String "-" (digits (- z)) else digits z.

Definition is_digit (c : ascii) : bool :=
  let n := N_of_ascii c in ((48 <=? n) && (n <=? 57))%N.

Definition digit_val (c : ascii) : Z := Z.of_N (N_of_ascii c) - 48.

(** The longest prefix of digits, read as a number, with its length and
    the rest of the string. *)
Fixpoint span_digits (acc : Z) (cnt : nat) (s : string) : Z * nat * string :=
  match s with
  | String c s' =>
      if is_digit c then span_digits (10 * acc + digit_val c) (S cnt) s'
      else (acc, cnt, s)
  | EmptyString => (acc, cnt, s)
  end.

(** [re.match("^\d+?\.\d+?$", s)]: digits, a dot, digits, then the end of
    the string or one final newline ([$] matches before it). *)
Definition re_match_decimal (s : string) : bool :=
  let '(_, n1, r1) := span_digits 0 O s in
  match n1, r1 with
  | S _, String "." r2 =>
      let '(_, n2, r3) := span_digits 0 O r2 in
      match n2, r3 with
      | S _, EmptyString => true
      | S _, String "010" EmptyString => true
      | _, _ => false
      end
  | _, _ => false
  end.

(** [float(s)] on the strings [re_match_decimal] accepts (the only ones
    the module hands to it): the float nearest to the decimal. *)
Definition float_of_str (s : string) : Result float :=
  if re_match_decimal s then
    let '(ip, _, r1) := span_digits 0 O s in
    let '(num, k, _) := span_digits ip O (Str.drop 1 r1) in
    Ok (float_of_ratio false num (Z.to_pos (10 ^ Z.of_nat k)))
  else Raise (ValueError ("could not convert string to float: " +:+ s)).

End Num.

(** ** Python values and [astropy.time] objects *)

(** What a [Time] object was built from. *)
Inductive TimeArg : Type :=
| ArgFloat (f : Num.float)
| ArgStr (s : string).

(** An [astropy.time.Time] object: its identity and the arguments of the
    constructor call that made it ([time_format = None]: format
    autodetected).  What astropy derives from them, and whether it accepts
    them at all, is astropy's business: the constructor is an argument of
    [time_factory]. *)
Record Time : Type := mkTime {
  time_id : nat;
  time_arg : TimeArg;
  time_format : option string;
  time_scale : string
}.

(** An [astropy.time.TimeDelta]: [TimeDelta(val, format=...)] or the
    product [td * n]. *)
Inductive TimeDelta : Type :=
| TimeDelta_new (val : Num.float) (format : string)
| TimeDelta_mul (td : TimeDelta) (n : Z).

Inductive PyVal : Type :=
| VNone
| VInt (z : Z)
| VFloat (f : Num.float)
| VStr (s : string)
| VTime (t : Time).

(** Computations that may build objects: the next free object id goes in
    and comes out. *)
Definition Alloc (A : Type) : Type := nat -> Result A * nat.

#[export] Instance Alloc_ret : MRet Alloc := fun _ a next => (Ok a, next).
#[export] Instance Alloc_bind : MBind Alloc := fun _ _ k c next =>
  match c next with
  | (Ok a, next') => k a next'
  | (Raise e, next') => (Raise e, next')
  end.

Definition lift {A} (r : Result A) : Alloc A := fun next => (r, next).

(** [str(itime)] in the message of line 71, for the values that reach it. *)
Definition str_of_other (v : PyVal) : string :=
  match v with
  | VNone => "None"
  | VInt z => Num.str_of_int z
  | _ => EmptyString
  end.

(** ** The module's constants *)

Definition rawExtensionDefault : string := "NEF".
Definition fitsExtension : string := "fits".
Definition stdcfgfilename : string := "dfnstation.cfg".

(** ** Time normalisation *)

Section TimeNormalisation.

(** astropy's constructor [Time(val, format=..., scale=...)]: it returns a
    [Time] or raises (a [ValueError] for a value it cannot read or that is
    out of its range). *)
Variable Time_init : TimeArg -> option string -> string -> Alloc Time.

(** [time_factory(itime)], lines 51-73. *)
Definition time_factory (itime : PyVal) : Alloc Time :=
  let numeric (f_itime : Num.float) : Alloc Time :=
    z ← lift (Num.int_of_float f_itime);
    if (7 <? Str.len (Num.str_of_int z))%nat
    then Time_init (ArgFloat f_itime) (Some "unix") "utc"
    else Time_init (ArgFloat f_itime) (Some "jd") "utc" in
  match itime with
  | VTime t => mret t
  | VFloat f => numeric f
  | VStr s =>
      if Num.re_match_decimal s
      then f_itime ← lift (Num.float_of_str s); numeric f_itime
      else Time_init (ArgStr s) None "utc"
  | _ => lift (Raise (TypeError (str_of_other itime +:+ "is NOT a valid TIME input")))
  end.

(** [60.0] *)
Definition float_60 : Num.float := S754_finite false 8444249301319680 (-47).

Definition rounding_msg : string :=
  "Can only round timestamp to n: integer [1,60], cannot be prime with 60".

(** Lines 87-88 of [round_to_nearest_n_seconds]: the check of [n].  It
    returns the integer when the check lets it through. *)
Definition rounding_factor_check (n : PyVal) : Result Z :=
  match n with
  | VInt z =>
      q ← Num.float_div_int float_60 z;
      k ← Num.int_of_float q;
      if negb (z * k =? 60) then Raise (TypeError rounding_msg) else Ok z
  | _ => Raise (TypeError rounding_msg)
  end.

Section Rounding.

(** astropy's side of lines 94-96: the [jd2] attribute of a [Time] and
    the subtraction [t - td], which builds a new [Time]. *)
Variable jd2 : Time -> Num.float.
Variable Time_sub : Time -> TimeDelta -> Alloc Time.

(** [round_to_nearest_n_seconds(itime, n)], lines 77-96. *)
Definition round_to_nearest_n_seconds (itime n : PyVal) : Alloc Time :=
  z ← lift (rounding_factor_check n);
  t ← time_factory itime;
  integer_day_factor ← lift (Num.int_truediv (24 * 3600) z);
  let x := SFmul Num.prec Num.emax (jd2 t) integer_day_factor in
  r ← lift (Num.round x);
  rf ← lift (Num.float_of_int r);
  let td := TimeDelta_new (SFsub Num.prec Num.emax x rf) "sec" in
  Time_sub t (TimeDelta_mul td z).

End Rounding.

End TimeNormalisation.

(** ** File discovery *)

(** [os.path.join(a, b)] on POSIX. *)
Definition path_join (a b : string) : string :=
  if Str.startswith b "/" then b
  else match a with
       | EmptyString => b
       | _ => if Str.ends_with_char a "/" then a +:+ b else a +:+ "/" +:+ b
       end.

(** The order of [sorted] on strings: code point by code point. *)
Definition str_le : relation string := fun a b => Is_true (String.leb a b).

#[export] Instance str_le_dec : RelDecision str_le.
Proof. intros a b. unfold str_le. apply _. Defined.

Definition sorted (l : list string) : list string := merge_sort str_le l.

(** The [extension] argument of [resolve_glob]: one extension or a list. *)
Inductive Extension : Type :=
| ExtStr (e : string)
| ExtList (es : list string).

Section FileLocator.

(** [glob.glob(pathname, recursive=...)]: the matching paths, in the
    order the file system gives them. *)
Variable glob : string -> bool -> list string.

(** [resolve_glob(extension, directory, prefix, suffix)], lines 98-109. *)
Definition resolve_glob (extension : Extension)
    (directory prefix suffix : string) : list string :=
  match extension with
  | ExtStr e =>
      sorted (glob (path_join directory (prefix +:+ "*" +:+ suffix +:+ "*." +:+ e)) false)
  | ExtList es =>
      sorted (concat (map (fun e =>
        glob (path_join directory (prefix +:+ "*" +:+ suffix +:+ "*." +:+ e)) false) es))
  end.

Definition several_cfg_warning : string :=
  "Several camera config files found in the directory.".

(** [getDfnstationConfigFile(directory)], lines 112-121: the value
    returned and the warnings emitted on the way. *)
Definition getDfnstationConfigFile (directory : string)
  : Result string * list string :=
  let possibleFiles := resolve_glob (ExtStr "cfg") directory EmptyString "dfnstation" in
  let warned :=
    if (1 <? length possibleFiles)%nat then [several_cfg_warning] else [] in
  if bool_decide (path_join directory stdcfgfilename ∈ possibleFiles)
  then (Ok stdcfgfilename, warned)
  else if (1 <=? length possibleFiles)%nat
       then (Str.getitem possibleFiles 0, warned)
       else (Ok EmptyString, warned).

End FileLocator.

Section FindLogFile.

(** [subprocess.check_output(cmd).decode()]: the decoded standard output
    of the command, or the exception of a failed run. *)
Variable check_output : list string -> Result string.

Definition newline : string := String "010" EmptyString.

(** [find_log_file(basedir, suffix, extension, system_number)],
    lines 125-153. *)
Definition find_log_file (basedir suffix extension system_number : string)
  : Result string :=
  let extended_suffix := system_number +:+ suffix +:+ "." +:+ extension in
  let find_comm :=
    ["find"; basedir; "-type"; "f"; "-name"; "*" +:+ extended_suffix] in
  out ← check_output find_comm;
  parts ← Str.split out newline;
  let list_results :=
    List.filter (fun e => Str.contains extended_suffix e && Str.startswith e basedir)
                parts in
  if (length list_results <? 1)%nat
  then Raise (FileNotFoundError "Could not locate log file")
  else Str.getitem list_results 0.

End FindLogFile.

(** ** Log parsing *)

(** Text-mode reading: [\r\n] and a lone [\r] become [\n]. *)
Fixpoint universal_newlines (s : string) : string :=
  match s with
  | EmptyString => EmptyString
  | String "013" (String "010" s') => String "010" (universal_newlines s')
  | String "013" s' => String "010" (universal_newlines s')
  | String c s' => String c (universal_newlines s')
  end.

(** The lines a file object yields: each keeps its final newline. *)
Fixpoint file_lines (s : string) : list string :=
  match s with
  | EmptyString => []
  | String c s' =>
      if Ascii.eqb c "010" then String c EmptyString :: file_lines s'
      else match file_lines s' with
           | [] => [String c EmptyString]
           | l :: ls => String c l :: ls
           end
  end.

(** What [search_dfn_operation_log] returns: a string under ['first'], a
    list under ['list']. *)
Inductive LogValue : Type :=
| One (s : string)
| Many (l : list string).

Definition unsupported_msg : string :=
  "Only output types --" +:+ "first" +:+ "-- and --" +:+ "list" +:+ "-- are supported".

Definition not_found_msg (key module log_file : string) : string :=
  "Could not find key " +:+ key +:+ " logged by module " +:+ module
  +:+ " in log file " +:+ log_file.

Definition separator (key module : string) : string :=
  module +:+ ", " +:+ key +:+ ", ".

(** [return_object += [parsed_value]], line 189. *)
Definition return_object_append (return_object : option LogValue) (v : string)
  : Result (option LogValue) :=
  match return_object with
  | Some (Many l) => Ok (Some (Many (l ++ [v])))
  | Some (One _) => Raise (TypeError "can only concatenate str (not list) to str")
  | None => Raise (UnboundLocalError "return_object")
  end.

(** The loop of lines 180-189 over the lines still to read, with the
    variables [found] and [return_object] ([None]: not yet assigned).  When
    the lines are used up the file object either stops the loop or raises
    [failure], the error of a read that went wrong. *)
Fixpoint scan_lines (key module results : string) (failure : option PyExc)
    (lines : list string) (found : bool) (return_object : option LogValue)
  : Result (bool * option LogValue) :=
  match lines with
  | [] =>
      match failure with
      | Some e => Raise e
      | None => Ok (found, return_object)
      end
  | line :: rest =>
      if Str.contains key line && Str.contains module line then
        parts ← Str.split line (separator key module);
        part ← Str.getitem parts 1;
        let parsed_value := Str.rstrip part in
        if String.eqb results "first"
        then Ok (true, Some (One parsed_value))
        else
          return_object' ← return_object_append return_object parsed_value;
          scan_lines key module results failure rest true return_object'
      else scan_lines key module results failure rest found return_object
  end.

(** What a path leads to.  [TextFile text failure]: [open] succeeds and
    the file object yields the lines of [text]; after them it stops
    ([failure = None]) or raises ([Some e]: bytes that do not decode, an I/O
    error).  [NoOpen e]: [open] raises [e] (a directory, a file without read
    permission). *)
Inductive FileState : Type :=
| TextFile (text : string) (failure : option PyExc)
| NoOpen (e : PyExc).

(** A text file that is read to its end. *)
Definition readable (text : string) : FileState := TextFile text None.

Section LogSearch.

(** The file system: a path that is not in it does not exist. *)
Variable fs : gmap string FileState.

(** [open(path, "r")]: the lines the file object will yield and how the
    reading ends, or the exception of [open]. *)
Definition open_lines (path : string) : Result (list string * option PyExc) :=
  match fs !! path with
  | Some (TextFile text failure) =>
      Ok (file_lines (universal_newlines text), failure)
  | Some (NoOpen e) => Raise e
  | None =>
      Raise (FileNotFoundError
               ("[Errno 2] No such file or directory: '" +:+ path +:+ "'"))
  end.

(** [search_dfn_operation_log(log_file, key, module, results)],
    lines 156-193. *)
Definition search_dfn_operation_log (log_file key module results : string)
  : Result LogValue :=
  if negb (bool_decide (results ∈ ["first"; "list"]))
  then Raise (KeyError unsupported_msg)
  else
    let return_object :=
      if String.eqb results "list" then Some (Many []) else None in
    '(lines, failure) ← open_lines log_file;
    '(found, return_object) ←
      scan_lines key module results failure lines false return_object;
    if (found : bool) then
      match return_object with
      | Some v => Ok v
      | None => Raise (UnboundLocalError "return_object")
      end
    else Raise (KeyError (not_found_msg key module log_file)).

End LogSearch.

(** ** Notions used to state the properties *)

Module StrSpec.
Import Str.

(** An occurrence of [sep] in [s]: the text before it and after it. *)
Definition occurs (sep s b a : string) : Prop := s = b +:+ sep +:+ a.

(** The leftmost occurrence. *)
Definition first_occurrence (sep s b a : string) : Prop :=
  occurs sep s b a /\
  forall b' a', occurs sep s b' a' -> (len b <= len b')%nat.

(** The list [s.split(sep)] builds, for a non-empty [sep]. *)
Definition split_list (sep s : string) : list string :=
  split_fuel (S (len s)) sep s.

(** [s.split(sep)[1]]: the text between the first occurrence of [sep]
    and the next one (or the end of [s]). *)
Definition second_field (sep s : string) : Result string :=
  parts ← split s sep; getitem parts 1.

(** No occurrence of a character in a string. *)
Fixpoint no_char (c : ascii) (s : string) : bool :=
  match s with
  | EmptyString => true
  | String d s' => negb (Ascii.eqb c d) && no_char c s'
  end.

(** The text of the lines [ls], each closed by the character [c]. *)
Definition unlines (c : ascii) (ls : list string) : string :=
  foldr (fun l acc => l +:+ String c acc) EmptyString ls.

End StrSpec.

(** A line the search takes up: it contains the key and the module. *)
Definition candidate (key module line : string) : bool :=
  Str.contains key line && Str.contains module line.

(** The value read off a line: the text after the first occurrence of the
    separator, up to its next occurrence or else the end of the line,
    without trailing white space. *)
Definition line_value (sep line : string) : string :=
  match Str.partition sep line with
  | Some (_, a) =>
      Str.rstrip (match Str.partition sep a with Some (v, _) => v | None => a end)
  | None => EmptyString
  end.

(** The number of decimal digits of the integer part [z]. *)
Definition int_digits (z : Z) : nat := Str.len (Num.digits (Z.abs z)).

(** The divisors of 60 the specification lists. *)
Definition valid_rounding_factors : list Z :=
  [1; 2; 3; 4; 5; 6; 10; 12; 15; 20; 30; 60].

(** [-1234567.0] *)
Definition minus_1234567 : Num.float := S754_finite true 5302424889720832 (-32).

(** A constructor to run the examples with: it accepts every call and
    records it in a new object.  (astropy's own refuses some calls; the
    statements below hold for every constructor.) *)
Definition demo_Time (arg : TimeArg) (format : option string) (scale : string)
  : Alloc Time :=
  fun next => (Ok (mkTime next arg format scale), S next).

(** A constructor that behaves as an allocator: a success is one new
    object, with the next free identity and the scale asked for; a failure
    builds nothing. *)
Definition allocating
    (init : TimeArg -> option string -> string -> Alloc Time) : Prop :=
  forall arg format scale next r next',
    init arg format scale next = (r, next') ->
    match r with
    | Ok t => time_id t = next /\ time_scale t = scale /\ next' = S next
    | Raise _ => next' = next
    end.

(** The extensions asked for. *)
Definition extensions (extension : Extension) : list string :=
  match extension with
  | ExtStr e => [e]
  | ExtList es => es
  end.

(** The pattern [resolve_glob] hands to [glob.glob] for one extension. *)
Definition glob_pattern (directory prefix suffix e : string) : string :=
  path_join directory (prefix +:+ "*" +:+ suffix +:+ "*." +:+ e).

(** A directory [raw] with two Nikon frames and one Canon frame, listed in
    no particular order, and a station directory with two configuration
    files. *)
Definition demo_glob (pathname : string) (recursive : bool) : list string :=
  if String.eqb pathname "raw/*01*.NEF" then ["raw/b_01.NEF"; "raw/a_01.NEF"]
  else if String.eqb pathname "raw/*01*.CR2" then ["raw/a_01.CR2"]
  else if String.eqb pathname "station/*dfnstation*.cfg"
       then ["station/dfnstation.cfg"; "station/2017_dfnstation_old.cfg"]
  else if String.eqb pathname "backup/*dfnstation*.cfg"
       then ["backup/x_dfnstation.cfg"; "backup/2017_dfnstation_old.cfg"]
  else [].

(** The pattern as the specification words it, for one extension:
    [directory/prefix*suffix*.extension], whatever the directory and the
    prefix are.  To be compared with [glob_pattern], the pattern of the
    code. *)
Definition claimed_pattern (directory prefix suffix e : string) : string :=
  directory +:+ "/" +:+ prefix +:+ "*" +:+ suffix +:+ "*." +:+ e.

(** A file system with one frame in [/abs] and nothing under [raw]. *)
Definition abs_glob (pathname : string) (recursive : bool) : list string :=
  if String.eqb pathname "/abs/a*_01*.NEF" then ["/abs/a_01.NEF"] else [].

(** [os.path.basename(p)]: what follows the last slash of [p]. *)
Fixpoint basename (p : string) : string :=
  match p with
  | EmptyString => EmptyString
  | String _ rest => if Str.contains "/" p then basename rest else p
  end.

(** The station directory of [demo_glob], asked for as [station//].
    [glob.glob] splits the pattern at its last run of slashes into the
    directory [station] and the pattern of the name, and joins each name
    that matches to that directory: the paths come back as [station/...],
    with one slash. *)
Definition slash_glob (pathname : string) (recursive : bool) : list string :=
  if String.eqb pathname "station//*dfnstation*.cfg"
  then ["station/dfnstation.cfg"; "station/2017_dfnstation_old.cfg"]
  else [].

(** The output of a [find] run that found [paths]: one path per line. *)
Definition find_output (paths : list string) : string :=
  StrSpec.unlines "010" paths.


(** A [find] that knows one tree, [/data], with two interval logs. *)
Definition demo_find (cmd : list string) : Result string :=
  if bool_decide (cmd = ["find"; "/data"; "-type"; "f"; "-name";
                         "*DFNSMALL15_log_interval.txt"])
  then Ok (find_output ["/data/2017/2017-06-30_DFNSMALL15_log_interval.txt";
                        "/data/2016/2016-01-02_DFNSMALL15_log_interval.txt"])
  else if bool_decide (cmd = ["find"; "/data"; "-type"; "f"; "-name";
                              "*DFNSMALL15_log_cloud.txt"])
  then Ok (find_output [])
  else Raise (CalledProcessError 1).

(** A log of three lines, two of them about [leostick_version]. *)
Definition leostick_line1 : string :=
  "2017-06-30 16:13:28,001, INFO, interval_control_lin, start, ok" +:+ newline.
Definition leostick_line2 : string :=
  "2017-06-30 16:13:29,102, INFO, interval_control_lin, leostick_version, mem error fixed, built: 10:56:18" +:+ newline.
Definition leostick_line3 : string :=
  "2017-06-30 16:14:00,417, INFO, interval_control_lin, leostick_version, second build  " +:+ newline.
Definition leostick_log : string :=
  leostick_line1 +:+ leostick_line2 +:+ leostick_line3.

(** ** Notions used by the further properties *)

(** A line the loop gets past: not a candidate, or a candidate that holds
    the separator. *)
Definition line_ok (key module line : string) : bool :=
  implb (candidate key module line)
        (Str.contains (separator key module) line).

(** The last character of [s] is white space. *)
Fixpoint ends_with_space (s : string) : bool :=
  match s with
  | EmptyString => false
  | String c EmptyString => Str.is_space c
  | String _ s' => ends_with_space s'
  end.

(** Every character of [s] is white space. *)
Fixpoint all_space (s : string) : bool :=
  match s with
  | EmptyString => true
  | String c s' => Str.is_space c && all_space s'
  end.

(** A log whose only line has the key [k] of module [m] with nothing but
    blanks after the separator. *)
Definition blank_value_log : string :=
  "2017-06-30 16:13:28,001, INFO, m, k,   " +:+ newline.

(** Every character of [s] is a decimal digit. *)
Fixpoint all_digits (s : string) : bool :=
  match s with
  | EmptyString => true
  | String c s' => Num.is_digit c && all_digits s'
  end.

(** [s] does not start with a digit. *)
Definition no_digit_ahead (s : string) : bool :=
  match s with
  | EmptyString => true
  | String c _ => negb (Num.is_digit c)
  end.

(** The same log when the bytes after its three lines do not decode. *)
Definition broken_log_fs : gmap string FileState :=
  {[ "op.log" := TextFile leostick_log
                   (Some (UnicodeDecodeError "invalid start byte")) ]}.

(** * Facts about the string operations *)

Module StrFacts.
Import Str StrSpec.

Lemma sapp_nil_r (s : string) : s +:+ EmptyString = s.
Proof. induction s as [|c s IH]; simpl; [reflexivity | now f_equal]. Qed.

Lemma sapp_assoc (a b c : string) : (a +:+ b) +:+ c = a +:+ (b +:+ c).
Proof. induction a as [|x a IH]; simpl; [reflexivity | now f_equal]. Qed.

Lemma len_app (a b : string) : len (a +:+ b) = (len a + len b)%nat.
Proof. induction a as [|x a IH]; simpl; [reflexivity | now f_equal]. Qed.

Lemma sapp_inv_head (a b c : string) : a +:+ b = a +:+ c -> b = c.
Proof. induction a as [|x a IH]; simpl; [tauto | intros [=]; auto]. Qed.

Lemma startswith_app (p r : string) : startswith (p +:+ r) p = true.
Proof.
  induction p as [|c p IH]; simpl; [now destruct r |].
  now rewrite Ascii.eqb_refl, IH.
Qed.

Lemma startswith_drop (s p : string) :
  startswith s p = true -> s = p +:+ drop (len p) s.
Proof.
  revert s; induction p as [|c p IH]; intros s H; simpl in *.
  - reflexivity.
  - destruct s as [|d s]; [discriminate|].
    apply andb_prop in H as [Hc Hp].
    apply Ascii.eqb_eq in Hc; subst d.
    simpl. f_equal. now apply IH.
Qed.

Lemma startswith_iff (s p : string) :
  startswith s p = true <-> exists r, s = p +:+ r.
Proof.
  split.
  - intros H. eexists. now apply startswith_drop.
  - intros [r ->]. apply startswith_app.
Qed.

Lemma drop_app (p r : string) : drop (len p) (p +:+ r) = r.
Proof. induction p as [|c p IH]; simpl; [now destruct r | exact IH]. Qed.

#[local] Arguments startswith : simpl never.

Lemma partition_occurs (sep s b a : string) :
  partition sep s = Some (b, a) -> occurs sep s b a.
Proof.
  revert b a; induction s as [|c s IH]; intros b a; simpl.
  - destruct (startswith EmptyString sep) eqn:E; [|discriminate].
    intros [= <- <-]. now apply startswith_drop in E.
  - destruct (startswith (String c s) sep) eqn:E.
    + intros [= <- <-]. now apply startswith_drop in E.
    + destruct (partition sep s) as [[b0 a0]|]; [|discriminate].
      intros [= <- <-]. unfold occurs in *. simpl. f_equal. now apply IH.
Qed.

Lemma partition_leftmost (sep s b a b' a' : string) :
  partition sep s = Some (b, a) -> occurs sep s b' a' -> (len b <= len b')%nat.
Proof.
  revert b a b' a'; induction s as [|c s IH]; intros b a b' a'; simpl.
  - destruct (startswith EmptyString sep); [|discriminate].
    intros [= <- <-] _. simpl. lia.
  - destruct (startswith (String c s) sep) eqn:E.
    + intros [= <- <-] _. simpl. lia.
    + destruct (partition sep s) as [[b0 a0]|] eqn:P; [|discriminate].
      intros [= <- <-] Hocc. unfold occurs in Hocc.
      destruct b' as [|d b']; simpl in Hocc.
      * rewrite Hocc, startswith_app in E. discriminate.
      * injection Hocc as -> Hocc. simpl.
        apply le_n_S. eapply IH; [reflexivity | exact Hocc].
Qed.

Lemma partition_first (sep s b a : string) :
  partition sep s = Some (b, a) -> first_occurrence sep s b a.
Proof.
  intros H; split; [now apply partition_occurs|].
  intros b' a'. eapply partition_leftmost, H.
Qed.

Lemma occurs_partition (sep s b a : string) :
  occurs sep s b a -> exists b0 a0, partition sep s = Some (b0, a0).
Proof.
  revert s; induction b as [|c b IH]; intros s ->; simpl.
  - destruct (sep +:+ a) eqn:E; simpl.
    + destruct sep; [simpl; eauto | discriminate].
    + rewrite <- E, startswith_app. eauto.
  - destruct (startswith (String c (b +:+ sep +:+ a)) sep); [eauto|].
    destruct (IH _ eq_refl) as (b0 & a0 & ->). eauto.
Qed.

Lemma partition_None (sep s : string) :
  partition sep s = None <-> forall b a, ~ occurs sep s b a.
Proof.
  split.
  - intros H b a Hocc. apply occurs_partition in Hocc as (? & ? & E). congruence.
  - intros H. destruct (partition sep s) as [[b a]|] eqn:E; [|reflexivity].
    exfalso. eapply H, partition_occurs, E.
Qed.

Lemma first_occurrence_unique (sep s b a b' a' : string) :
  first_occurrence sep s b a -> first_occurrence sep s b' a' -> b = b' /\ a = a'.
Proof.
  intros [H1 L1] [H2 L2].
  pose proof (L1 _ _ H2). pose proof (L2 _ _ H1).
  assert (len b = len b') as Hlen by lia.
  unfold occurs in *. subst s.
  clear - H2 Hlen. revert b' H2 Hlen.
  induction b as [|c b IH]; intros [|d b'] H Hlen; simpl in *; try discriminate.
  - apply sapp_inv_head in H. auto.
  - injection H as -> H. injection Hlen as Hlen.
    destruct (IH _ H Hlen) as [-> ->]. auto.
Qed.

Lemma first_occurrence_partition (sep s b a : string) :
  first_occurrence sep s b a -> partition sep s = Some (b, a).
Proof.
  intros H. destruct (occurs_partition sep s b a (proj1 H)) as (b0 & a0 & E).
  destruct (first_occurrence_unique _ _ _ _ _ _ H (partition_first _ _ _ _ E))
    as [-> ->].
  exact E.
Qed.

Lemma contains_partition (sub s : string) :
  contains sub s = true <-> exists b a, partition sub s = Some (b, a).
Proof.
  induction s as [|c s IH]; simpl.
  - destruct (startswith EmptyString sub); simpl; split; eauto;
      try discriminate; intros (? & ? & [=]).
  - destruct (startswith (String c s) sub); simpl; [split; eauto|].
    rewrite IH. destruct (partition sub s) as [[b a]|]; split; eauto;
      intros (? & ? & [=]).
Qed.


Lemma contains_false (sub s : string) :
  contains sub s = false <-> partition sub s = None.
Proof.
  destruct (contains sub s) eqn:E.
  - apply contains_partition in E as (b & a & ->). split; discriminate.
  - split; [|reflexivity]. intros _.
    destruct (partition sub s) as [[b a]|] eqn:P; [|reflexivity].
    assert (contains sub s = true) by (apply contains_partition; eauto).
    congruence.
Qed.

Lemma partition_len (sep s b a : string) :
  partition sep s = Some (b, a) -> len s = (len b + len sep + len a)%nat.
Proof.
  intros H%partition_occurs. unfold occurs in H. subst s.
  rewrite !len_app. lia.
Qed.

(** Enough fuel: the result of [split_fuel] no longer depends on it. *)
Lemma split_fuel_enough (sep s : string) (f1 f2 : nat) :
  (0 < len sep)%nat -> (len s < f1)%nat -> (len s < f2)%nat ->
  split_fuel f1 sep s = split_fuel f2 sep s.
Proof.
  intros Hsep. revert s f2.
  induction f1 as [|f1 IH]; intros s f2 H1 H2; [lia|].
  destruct f2 as [|f2]; [lia|]. simpl.
  destruct (partition sep s) as [[b a]|] eqn:E; [|reflexivity].
  apply partition_len in E. f_equal. apply IH; lia.
Qed.

Lemma split_list_eq (sep s : string) :
  (0 < len sep)%nat ->
  split_list sep s =
    match partition sep s with
    | None => [s]
    | Some (b, a) => b :: split_list sep a
    end.
Proof.
  intros Hsep. unfold split_list at 1. cbn [split_fuel].
  destruct (partition sep s) as [[b a]|] eqn:E; [|reflexivity].
  apply partition_len in E. f_equal. apply split_fuel_enough; lia.
Qed.

Lemma split_ok (s sep : string) :
  (0 < len sep)%nat -> split s sep = Ok (split_list sep s).
Proof. destruct sep; simpl; [lia | reflexivity]. Qed.

Lemma second_field_eq (sep s : string) :
  (0 < len sep)%nat ->
  second_field sep s =
    match partition sep s with
    | None => Raise (IndexError "list index out of range")
    | Some (_, a) =>
        Ok (match partition sep a with Some (v, _) => v | None => a end)
    end.
Proof.
  intros Hsep. unfold second_field. rewrite split_ok by exact Hsep.
  cbn [mbind Result_bind]. rewrite split_list_eq by exact Hsep.
  destruct (partition sep s) as [[b a]|]; [|reflexivity].
  rewrite split_list_eq by exact Hsep.
  now destruct (partition sep a) as [[v a2]|].
Qed.




Lemma contains_nil (sub : string) :
  (0 < len sub)%nat -> contains sub EmptyString = false.
Proof. destruct sub; simpl; [lia | reflexivity]. Qed.

End StrFacts.

(** * Facts about the log search *)

Section LogSearchFacts.
Import Str StrSpec StrFacts.

Variables (key module : string).

Local Abbreviation sep := (separator key module).
Local Abbreviation cand := (candidate key module).

Lemma separator_len : (0 < len (separator key module))%nat.
Proof. unfold separator. rewrite !len_app. simpl. lia. Qed.

Lemma separator_split (line : string) :
  split line (separator key module) = Ok (split_list (separator key module) line).
Proof. apply split_ok, separator_len. Qed.

Lemma line_value_once (line b a : string) :
  first_occurrence sep line b a ->
  (forall b2 a2, ~ occurs sep a b2 a2) ->
  line_value sep line = rstrip a.
Proof.
  intros H1%first_occurrence_partition H2%partition_None.
  unfold line_value. now rewrite H1, H2.
Qed.

Lemma line_value_twice (line b a v a2 : string) :
  first_occurrence sep line b a ->
  first_occurrence sep a v a2 ->
  line_value sep line = rstrip v.
Proof.
  intros H1%first_occurrence_partition H2%first_occurrence_partition.
  unfold line_value. now rewrite H1, H2.
Qed.

(** One turn of the loop on a candidate line. *)
Lemma scan_candidate (results line : string) (rest : list string)
    (found : bool) (ro : option LogValue) (failure : option PyExc) :
  cand line = true ->
  scan_lines key module results failure (line :: rest) found ro =
    if contains sep line then
      if String.eqb results "first"
      then Ok (true, Some (One (line_value sep line)))
      else ro' ← return_object_append ro (line_value sep line);
           scan_lines key module results failure rest true ro'
    else Raise (IndexError "list index out of range").
Proof.
  intros Hc. cbn [scan_lines]. fold (candidate key module line).
  rewrite Hc, separator_split. cbn [mbind Result_bind].
  rewrite split_list_eq by apply separator_len.
  unfold line_value.
  destruct (contains sep line) eqn:E.
  - apply contains_partition in E as (b & a & ->).
    rewrite split_list_eq by apply separator_len.
    now destruct (partition sep a) as [[v a2]|].
  - apply contains_false in E. now rewrite E.
Qed.

Lemma scan_other (results line : string) (rest : list string)
    (found : bool) (ro : option LogValue) (failure : option PyExc) :
  cand line = false ->
  scan_lines key module results failure (line :: rest) found ro =
    scan_lines key module results failure rest found ro.
Proof.
  intros Hc. cbn [scan_lines]. fold (candidate key module line).
  now rewrite Hc.
Qed.

Lemma scan_skip (results : string) (pre rest : list string)
    (found : bool) (ro : option LogValue) :
  Forall (fun l => cand l = false) pre ->
  scan_lines key module results None (pre ++ rest) found ro =
    scan_lines key module results None rest found ro.
Proof.
  induction 1 as [|l pre Hl _ IH]; [reflexivity|].
  rewrite <- app_comm_cons, scan_other by exact Hl. exact IH.
Qed.

(** Under ['list'], the lines read so far add their values in order. *)
Lemma scan_list_app (results : string) (pre rest : list string)
    (found : bool) (acc : list string) :
  String.eqb results "first" = false ->
  Forall (fun l => cand l = true -> contains sep l = true) pre ->
  scan_lines key module results None (pre ++ rest) found (Some (Many acc)) =
    scan_lines key module results None rest (found || existsb cand pre)
      (Some (Many (acc ++ map (line_value sep) (List.filter cand pre)))).
Proof.
  intros Hr H. revert found acc.
  induction H as [|l pre Hl _ IH]; intros found acc.
  - simpl. now rewrite orb_false_r, app_nil_r.
  - rewrite <- app_comm_cons. simpl existsb. simpl List.filter.
    destruct (cand l) eqn:Hc.
    + rewrite scan_candidate, (Hl eq_refl), Hr by exact Hc.
      cbn [return_object_append mbind Result_bind].
      rewrite IH. simpl. now rewrite orb_true_r, <- app_assoc.
    + rewrite scan_other by exact Hc. rewrite IH. now rewrite orb_false_l.
Qed.

(** The loop raises nothing but the indexing error of line 183. *)
Lemma scan_raise (results : string) (lines : list string)
    (found : bool) (ro : option LogValue) (e : PyExc) :
  String.eqb results "first" = true \/ (exists acc, ro = Some (Many acc)) ->
  scan_lines key module results None lines found ro = Raise e ->
  e = IndexError "list index out of range".
Proof.
  revert found ro. induction lines as [|l lines IH]; intros found ro Hro.
  - discriminate.
  - destruct (cand l) eqn:Hc.
    + rewrite scan_candidate by exact Hc.
      destruct (contains sep l); [|now intros [= <-]].
      destruct (String.eqb results "first") eqn:Hr; [discriminate|].
      destruct Hro as [[=]|[acc ->]]. cbn [return_object_append mbind Result_bind].
      apply IH. eauto.
    + rewrite scan_other by exact Hc. now apply IH.
Qed.

(** The flag [found] at the end of the loop. *)
Lemma scan_found (results : string) (lines : list string)
    (found f : bool) (ro ro' : option LogValue) :
  scan_lines key module results None lines found ro = Ok (f, ro') ->
  f = found || existsb cand lines.
Proof.
  revert found ro. induction lines as [|l lines IH]; intros found ro.
  - simpl. intros [= <- <-]. now rewrite orb_false_r.
  - simpl existsb. destruct (cand l) eqn:Hc.
    + rewrite scan_candidate by exact Hc. rewrite orb_true_r.
      destruct (contains sep l); [|discriminate].
      destruct (String.eqb results "first"); [now intros [= <- <-]|].
      destruct (return_object_append ro (line_value sep l)) as [ro1|]; [|discriminate].
      cbn [mbind Result_bind]. intros H%IH. now rewrite H.
    + rewrite scan_other by exact Hc. apply IH.
Qed.

Lemma existsb_Forall_false (lines : list string) :
  existsb cand lines = false <-> Forall (fun l => cand l = false) lines.
Proof.
  induction lines as [|l lines IH]; simpl.
  - split; [constructor | reflexivity].
  - rewrite orb_false_iff, IH. split.
    + intros [? ?]. now constructor.
    + now inversion 1.
Qed.

Variable fs : gmap string FileState.

Lemma mode_supported (results : string) :
  bool_decide (results ∈ ["first"; "list"]) = true <->
  results = "first" \/ results = "list".
Proof.
  rewrite bool_decide_eq_true, !elem_of_cons, elem_of_nil. tauto.
Qed.

(** The function once the mode is accepted and the file is open. *)
Lemma search_open (log_file text results : string) :
  fs !! log_file = Some (readable text) ->
  results = "first" \/ results = "list" ->
  search_dfn_operation_log fs log_file key module results =
    '(found, return_object) ←
       scan_lines key module results None (file_lines (universal_newlines text)) false
         (if String.eqb results "list" then Some (Many []) else None);
    if (found : bool) then
      match return_object with
      | Some v => Ok v
      | None => Raise (UnboundLocalError "return_object")
      end
    else Raise (KeyError (not_found_msg key module log_file)).
Proof.
  intros Hfs Hm%mode_supported. unfold search_dfn_operation_log, open_lines.
  now rewrite Hm, Hfs.
Qed.

Lemma search_unsupported (log_file results : string) :
  results <> "first" -> results <> "list" ->
  search_dfn_operation_log fs log_file key module results =
    Raise (KeyError unsupported_msg).
Proof.
  intros H1 H2. unfold search_dfn_operation_log.
  destruct (bool_decide (results ∈ ["first"; "list"])) eqn:E; [|reflexivity].
  apply mode_supported in E. tauto.
Qed.

Lemma search_first (log_file text : string) (pre post : list string) (line : string) :
  fs !! log_file = Some (readable text) ->
  file_lines (universal_newlines text) = pre ++ line :: post ->
  Forall (fun l => cand l = false) pre ->
  cand line = true ->
  search_dfn_operation_log fs log_file key module "first" =
    if contains sep line then Ok (One (line_value sep line))
    else Raise (IndexError "list index out of range").
Proof.
  intros Hfs Hl Hpre Hc. rewrite (search_open _ _ _ Hfs) by auto.
  rewrite Hl, scan_skip, scan_candidate by assumption.
  now destruct (contains sep line).
Qed.

Lemma search_list (log_file text : string) :
  fs !! log_file = Some (readable text) ->
  Forall (fun l => cand l = true -> contains sep l = true)
         (file_lines (universal_newlines text)) ->
  search_dfn_operation_log fs log_file key module "list" =
    if existsb cand (file_lines (universal_newlines text))
    then Ok (Many (map (line_value sep)
                       (List.filter cand (file_lines (universal_newlines text)))))
    else Raise (KeyError (not_found_msg key module log_file)).
Proof.
  intros Hfs Hall. rewrite (search_open _ _ _ Hfs) by auto.
  change (String.eqb "list" "list") with true. cbv iota.
  rewrite <- (List.app_nil_r (file_lines (universal_newlines text))) at 1.
  rewrite scan_list_app by (reflexivity || assumption).
  cbn [scan_lines mbind Result_bind orb app].
  now destruct (existsb cand (file_lines (universal_newlines text))).
Qed.

(** The two [KeyError] messages cannot be confused. *)
Lemma messages_differ (log_file : string) :
  not_found_msg key module log_file <> unsupported_msg.
Proof. discriminate. Qed.

End LogSearchFacts.

(** * The log search: values and errors *)

(** C5 (as amended).  On a log whose candidate lines (those containing the
    key and the module) all contain the separator [module, key, ], the value
    of a candidate line is the text after the first occurrence of the
    separator up to its next occurrence, or up to the end of the line when
    the separator occurs once, with trailing white space stripped.  Under
    ['first'] the search returns the value of the first candidate line;
    under ['list'] it returns the values of all candidate lines in file
    order. *)
Theorem search_log_extracts_values
    (fs : gmap string FileState) (log_file text key module : string) :
  fs !! log_file = Some (readable text) ->
  Forall (fun l => candidate key module l = true ->
                   Str.contains (separator key module) l = true)
         (file_lines (universal_newlines text)) ->
  (forall line b a,
      StrSpec.first_occurrence (separator key module) line b a ->
      (forall b2 a2, ~ StrSpec.occurs (separator key module) a b2 a2) ->
      line_value (separator key module) line = Str.rstrip a) /\
  (forall line b a v a2,
      StrSpec.first_occurrence (separator key module) line b a ->
      StrSpec.first_occurrence (separator key module) a v a2 ->
      line_value (separator key module) line = Str.rstrip v) /\
  (forall pre line post,
      file_lines (universal_newlines text) = pre ++ line :: post ->
      Forall (fun l => candidate key module l = false) pre ->
      candidate key module line = true ->
      search_dfn_operation_log fs log_file key module "first" =
        Ok (One (line_value (separator key module) line))) /\
  (existsb (candidate key module) (file_lines (universal_newlines text)) = true ->
   search_dfn_operation_log fs log_file key module "list" =
     Ok (Many (map (line_value (separator key module))
                   (List.filter (candidate key module)
                                (file_lines (universal_newlines text)))))).
Proof.
  intros Hfs Hall. repeat split.
  - intros line b a. apply line_value_once.
  - intros line b a v a2. apply line_value_twice.
  - intros pre line post Hl Hpre Hc.
    rewrite (search_first key module fs log_file text pre post line) by assumption.
    rewrite Hl in Hall. apply Forall_app in Hall as [_ Hall].
    apply Forall_cons in Hall as [Hline _]. now rewrite (Hline Hc).
  - intros Hex. rewrite (search_list key module fs log_file text) by assumption.
    now rewrite Hex.
Qed.

(** The example of the specification: the value of [leostick_version]
    logged by [interval_control_lin], under both modes. *)
Lemma search_log_extracts_values_leostick :
  search_dfn_operation_log {[ "op.log" := readable leostick_log ]} "op.log"
    "leostick_version" "interval_control_lin" "first"
  = Ok (One "mem error fixed, built: 10:56:18") /\
  search_dfn_operation_log {[ "op.log" := readable leostick_log ]} "op.log"
    "leostick_version" "interval_control_lin" "list"
  = Ok (Many ["mem error fixed, built: 10:56:18"; "second build"]).
Proof.
  assert (Hfs : ({[ "op.log" := readable leostick_log ]} : gmap string FileState) !! "op.log"
                = Some (readable leostick_log)) by reflexivity.
  assert (Hall : Forall (fun l =>
            candidate "leostick_version" "interval_control_lin" l = true ->
            Str.contains (separator "leostick_version" "interval_control_lin") l = true)
            (file_lines (universal_newlines leostick_log))).
  { vm_compute file_lines. repeat constructor; vm_compute; congruence. }
  destruct (search_log_extracts_values _ _ _ _ _ Hfs Hall) as (_ & _ & Hfirst & Hlist).
  split.
  - rewrite (Hfirst [leostick_line1] leostick_line2 [leostick_line3]).
    + vm_compute. reflexivity.
    + vm_compute. reflexivity.
    + repeat constructor.
    + vm_compute. reflexivity.
  - rewrite Hlist; vm_compute; reflexivity.
Defined.

(** C5, counterexample.  The only line of the log is a candidate and
    contains the separator, twice.  The search returns ["a"], the text
    between the two occurrences: whichever occurrence one takes, the text
    that follows it up to the end of the line, stripped, is something
    else. *)
Lemma search_log_value_stops_at_next_separator :
  let line := "m, k, a m, k, b" in
  file_lines (universal_newlines line) = [line] /\
  candidate "k" "m" line = true /\
  Str.contains (separator "k" "m") line = true /\
  search_dfn_operation_log {[ "op.log" := readable line ]} "op.log" "k" "m" "first"
    = Ok (One "a") /\
  forall b a, StrSpec.occurs (separator "k" "m") line b a ->
    search_dfn_operation_log {[ "op.log" := readable line ]} "op.log" "k" "m" "first"
      <> Ok (One (Str.rstrip a)).
Proof.
  cbv zeta. repeat split; try (vm_compute; reflexivity).
  intros b a Hocc.
  change (search_dfn_operation_log {[ "op.log" := readable "m, k, a m, k, b" ]}
            "op.log" "k" "m" "first") with (Ok (One "a")).
  unfold StrSpec.occurs in Hocc. vm_compute separator in Hocc.
  do 16 (try (destruct b as [|? b]; simpl in Hocc;
              [ first [ discriminate Hocc
                      | injection Hocc as <-; vm_compute; discriminate ]
              | first [ discriminate Hocc | injection Hocc as <- Hocc ] ])).
Qed.

(** C6 (as amended).  On a log that can be read: the search fails with
    the unsupported-mode [KeyError] exactly when the mode is neither
    ['first'] nor ['list']; it fails with the key-not-found [KeyError]
    exactly when the mode is supported and no line contains both the key and
    the module; the message of the latter reports the key, the module and
    the path. *)
Theorem search_log_error_cases
    (fs : gmap string FileState) (log_file text key module results : string) :
  fs !! log_file = Some (readable text) ->
  (search_dfn_operation_log fs log_file key module results
     = Raise (KeyError unsupported_msg)
   <-> results <> "first" /\ results <> "list") /\
  (search_dfn_operation_log fs log_file key module results
     = Raise (KeyError (not_found_msg key module log_file))
   <-> (results = "first" \/ results = "list") /\
       Forall (fun l => candidate key module l = false)
              (file_lines (universal_newlines text))) /\
  (exists m1 m2 m3,
      not_found_msg key module log_file
        = m1 +:+ key +:+ m2 +:+ module +:+ m3 +:+ log_file).
Proof.
  intros Hfs.
  assert (Hmode : (results = "first" \/ results = "list") \/
                  (results <> "first" /\ results <> "list")).
  { destruct (decide (results = "first")), (decide (results = "list")); tauto. }
  assert (Hro : (results = "first" \/ results = "list") ->
     String.eqb results "first" = true \/
     exists acc, (if String.eqb results "list" then Some (Many []) else None)
                 = Some (Many acc)).
  { intros [-> | ->]; [now left | right; eauto]. }
  split; [|split].
  - split.
    + intros H. destruct Hmode as [Hm|Hm]; [exfalso|exact Hm].
      rewrite (search_open key module fs _ _ _ Hfs Hm) in H.
      destruct (scan_lines _ _ _ _ _ _) as [[f ro]|e] eqn:E; cbn in H.
      * destruct f; [destruct ro|]; discriminate H.
      * apply scan_raise in E; [|now apply Hro]. subst e. discriminate H.
    + intros [H1 H2]. now apply search_unsupported.
  - split.
    + intros H. destruct Hmode as [Hm|[H1 H2]].
      * split; [exact Hm|].
        rewrite (search_open key module fs _ _ _ Hfs Hm) in H.
        destruct (scan_lines _ _ _ _ _ _) as [[f ro]|e] eqn:E; cbn in H.
        -- apply scan_found in E. apply existsb_Forall_false.
           destruct f; [destruct ro; discriminate H|].
           now destruct (existsb _ _).
        -- apply scan_raise in E; [|now apply Hro]. subst e. discriminate H.
      * rewrite search_unsupported in H by assumption.
        cbn in H. discriminate H.
    + intros [Hm Hnone].
      rewrite (search_open key module fs _ _ _ Hfs Hm).
      rewrite <- (List.app_nil_r (file_lines (universal_newlines text))).
      now rewrite scan_skip by exact Hnone.
  - exists "Could not find key ", " logged by module ", " in log file ".
    reflexivity.
Qed.

(** A log without the key, searched under each mode and under a mode that
    does not exist. *)
Lemma search_log_error_cases_witness :
  search_dfn_operation_log {[ "op.log" := readable leostick_log ]} "op.log"
    "firmware" "interval_control_lin" "list"
  = Raise (KeyError
      "Could not find key firmware logged by module interval_control_lin in log file op.log")
  /\
  search_dfn_operation_log {[ "op.log" := readable leostick_log ]} "op.log"
    "firmware" "interval_control_lin" "all"
  = Raise (KeyError "Only output types --first-- and --list-- are supported").
Proof.
  assert (Hfs : ({[ "op.log" := readable leostick_log ]} : gmap string FileState) !! "op.log"
                = Some (readable leostick_log)) by reflexivity.
  split.
  - apply (search_log_error_cases _ _ _ "firmware" "interval_control_lin" "list" Hfs).
    split; [now right|]. vm_compute file_lines.
    repeat constructor.
  - apply (search_log_error_cases _ _ _ "firmware" "interval_control_lin" "all" Hfs).
    split; discriminate.
Defined.

(** C6, counterexample.  No line of the log contains both the key and the
    module, yet the search does not fail with the key-not-found error: the
    mode is checked first, and the mode ["all"] is not supported. *)
Lemma search_log_bad_mode_comes_first :
  Forall (fun l => candidate "firmware" "interval_control_lin" l = false)
         (file_lines (universal_newlines leostick_log)) /\
  search_dfn_operation_log {[ "op.log" := readable leostick_log ]} "op.log"
    "firmware" "interval_control_lin" "all"
  <> Raise (KeyError (not_found_msg "firmware" "interval_control_lin" "op.log")).
Proof.
  split.
  - vm_compute file_lines. repeat constructor.
  - vm_compute. discriminate.
Qed.

(** C7.  There is an input on which the search ends with the indexing
    error of line 183; and whenever the first line that the loop cannot
    pass is a candidate line without the separator, the split yields the
    line alone and the search raises [IndexError], under either mode.  (Under
    ['list'] the loop passes candidate lines that contain the separator;
    under ['first'] it passes no candidate line.) *)
Theorem search_log_index_error :
  (exists fs log_file key module results,
      search_dfn_operation_log fs log_file key module results
        = Raise (IndexError "list index out of range")) /\
  (forall (fs : gmap string FileState) log_file text key module results pre line post,
      results = "first" \/ results = "list" ->
      fs !! log_file = Some (readable text) ->
      file_lines (universal_newlines text) = pre ++ line :: post ->
      Forall (fun l => candidate key module l = true ->
                       results = "list" /\
                       Str.contains (separator key module) l = true) pre ->
      candidate key module line = true ->
      Str.contains (separator key module) line = false ->
      Str.split line (separator key module) = Ok [line] /\
      search_dfn_operation_log fs log_file key module results
        = Raise (IndexError "list index out of range")).
Proof.
  split.
  - exists {[ "op.log" := readable "firmware 1.2 by interval_control_lin" ]},
      "op.log", "firmware", "interval_control_lin", "first".
    vm_compute. reflexivity.
  - intros fs log_file text key module results pre line post Hm Hfs Hl Hpre Hc Hsep.
    split.
    + rewrite separator_split, StrFacts.split_list_eq by apply separator_len.
      apply StrFacts.contains_false in Hsep. now rewrite Hsep.
    + rewrite (search_open key module fs _ _ _ Hfs Hm), Hl.
      destruct Hm as [-> | ->].
      * rewrite scan_skip, scan_candidate, Hsep; [reflexivity|exact Hc|].
        eapply Forall_impl; [exact Hpre|]. intros l Hl'. cbv beta in Hl'.
        destruct (candidate key module l); [|reflexivity].
        now destruct (Hl' eq_refl).
      * change (String.eqb "list" "list") with true. cbv iota.
        rewrite scan_list_app, scan_candidate, Hsep; [reflexivity|exact Hc|reflexivity|].
        eapply Forall_impl; [exact Hpre|]. intros l Hl' Hcl. now apply Hl'.
Qed.

(** A key that is a proper part of the logged key ([leostick] in
    [leostick_version]): the line is a candidate, the separator is not in
    it. *)
Lemma search_log_index_error_witness :
  search_dfn_operation_log {[ "op.log" := readable leostick_log ]} "op.log"
    "leostick" "interval_control_lin" "list"
  = Raise (IndexError "list index out of range").
Proof.
  refine (proj2 (proj2 search_log_index_error
    {[ "op.log" := readable leostick_log ]} "op.log" leostick_log
    "leostick" "interval_control_lin" "list"
    [leostick_line1] leostick_line2 [leostick_line3] _ _ _ _ _ _)).
  - now right.
  - reflexivity.
  - vm_compute. reflexivity.
  - repeat constructor. vm_compute. discriminate.
  - vm_compute. reflexivity.
  - vm_compute. reflexivity.
Defined.

(** * File discovery *)

Section OrderFacts.

Lemma ascii_compare_spec (x y : ascii) :
  CompareSpec (x = y) (N_of_ascii x < N_of_ascii y)%N
              (N_of_ascii y < N_of_ascii x)%N (Ascii.compare x y).
Proof.
  unfold Ascii.compare.
  destruct (N.compare_spec (N_of_ascii x) (N_of_ascii y)) as [H|H|H];
    constructor; try assumption.
  rewrite <- (ascii_N_embedding x), <- (ascii_N_embedding y). now f_equal.
Qed.

Lemma string_leb_trans (a b c : string) :
  String.leb a b = true -> String.leb b c = true -> String.leb a c = true.
Proof.
  unfold String.leb. revert b c.
  induction a as [|x a IH]; intros [|y b] [|z c]; simpl; try congruence.
  destruct (ascii_compare_spec x y) as [->|Hxy|Hxy]; try congruence.
  - destruct (ascii_compare_spec y z) as [->|Hyz|Hyz]; try congruence.
    apply IH.
  - intros _.
    destruct (ascii_compare_spec y z) as [->|Hyz|Hyz]; try congruence; intros _.
    + destruct (ascii_compare_spec x z) as [->|Hxz|Hxz]; try congruence; lia.
    + destruct (ascii_compare_spec x z) as [->|Hxz|Hxz]; try congruence; lia.
Qed.

#[export] Instance str_le_total : Total str_le.
Proof.
  intros a b. unfold str_le.
  destruct (String.leb_total a b) as [-> | ->]; simpl; auto.
Qed.

#[export] Instance str_le_trans : Transitive str_le.
Proof.
  intros a b c. unfold str_le. rewrite !Is_true_true. apply string_leb_trans.
Qed.

Lemma sorted_StronglySorted (l : list string) : StronglySorted str_le (sorted l).
Proof. apply StronglySorted_merge_sort; apply _. Qed.

Lemma sorted_Permutation (l : list string) : sorted l ≡ₚ l.
Proof. apply merge_sort_Permutation. Qed.

Lemma sorted_nil (l : list string) : sorted l = [] <-> l = [].
Proof.
  split.
  - intros H. apply Permutation_nil_r. rewrite <- H. symmetry. apply sorted_Permutation.
  - intros ->. reflexivity.
Qed.

(** The head of a sorted list is a least element of the list sorted. *)
Lemma sorted_head (l : list string) (c : string) (cs : list string) :
  sorted l = c :: cs -> c ∈ l /\ forall x, x ∈ l -> str_le c x.
Proof.
  intros H. pose proof (sorted_StronglySorted l) as Hs.
  pose proof (sorted_Permutation l) as Hp. rewrite H in Hs, Hp.
  split.
  - rewrite <- Hp. now left.
  - intros x Hx. rewrite <- Hp in Hx.
    apply elem_of_cons in Hx as [-> | Hx].
    + destruct (total str_le c c); assumption.
    + apply StronglySorted_inv in Hs as [_ Hall].
      rewrite Forall_forall in Hall. now apply Hall.
Qed.

End OrderFacts.

Section FileLocatorFacts.
Import Str StrSpec StrFacts.

Variable glob : string -> bool -> list string.

Lemma resolve_glob_eq (extension : Extension) (directory prefix suffix : string) :
  resolve_glob glob extension directory prefix suffix =
    sorted (concat (map (fun e => glob (glob_pattern directory prefix suffix e) false)
                        (extensions extension))).
Proof.
  destruct extension as [e|es]; simpl; [|reflexivity].
  now rewrite List.app_nil_r.
Qed.

Lemma path_join_relative (a b : string) :
  startswith b "/" = false -> a <> EmptyString -> ends_with_char a "/" = false ->
  path_join a b = a +:+ "/" +:+ b.
Proof.
  intros Hb Ha Hs. unfold path_join. rewrite Hb, Hs. now destruct a.
Qed.

Lemma startswith_star (prefix rest : string) :
  startswith (prefix +:+ "*" +:+ rest) "/" = startswith prefix "/".
Proof. destruct prefix as [|c p]; reflexivity. Qed.

(** [os.path.join] case by case, for the name pattern of [resolve_glob]. *)
Lemma glob_pattern_cases (directory prefix suffix e : string) :
  glob_pattern directory prefix suffix e =
    (let name := prefix +:+ "*" +:+ suffix +:+ "*." +:+ e in
     if startswith prefix "/" then name
     else if String.eqb directory EmptyString then name
     else if ends_with_char directory "/" then directory +:+ name
     else directory +:+ "/" +:+ name).
Proof.
  cbv zeta. unfold glob_pattern, path_join. rewrite startswith_star.
  destruct (startswith prefix "/"); [reflexivity|].
  now destruct directory.
Qed.

Lemma sapp_longer (a b : string) : a <> EmptyString -> b <> a +:+ b.
Proof.
  intros Ha H. apply (f_equal len) in H. rewrite len_app in H.
  destruct a; [congruence|]. simpl in H. lia.
Qed.

(** The pattern of the code is the pattern as the specification words it
    for a relative prefix and a directory that is not empty and has no
    final slash, and in no other case. *)
Lemma glob_pattern_as_claimed (directory prefix suffix e : string) :
  glob_pattern directory prefix suffix e = claimed_pattern directory prefix suffix e
  <-> startswith prefix "/" = false /\ directory <> EmptyString /\
      ends_with_char directory "/" = false.
Proof.
  rewrite glob_pattern_cases. cbv zeta. unfold claimed_pattern.
  set (name := prefix +:+ "*" +:+ suffix +:+ "*." +:+ e).
  destruct (startswith prefix "/").
  - split; [|intros [? _]; discriminate].
    intros H. exfalso. rewrite <- sapp_assoc in H.
    apply sapp_longer in H; [exact H|]. now destruct directory.
  - destruct (String.eqb_spec directory EmptyString) as [->|Hd].
    + split; [|intros (_ & ? & _); congruence].
      intros H. exfalso. now apply (sapp_longer "/" name).
    + destruct (ends_with_char directory "/").
      * split; [|intros (_ & _ & ?); discriminate].
        intros H. exfalso. apply sapp_inv_head in H.
        now apply (sapp_longer "/" name).
      * split; [auto|reflexivity].
Qed.

End FileLocatorFacts.

(** C9 (as amended).  For every extension or list of extensions,
    directory, prefix and suffix, [resolve_glob] returns one sorted sequence
    holding exactly the paths that the non-recursive glob of the pattern
    yields over all extensions [e] asked for, each as often as it is
    yielded; it is empty when nothing matches; being a total function, it
    raises nothing.  The pattern is [os.path.join(directory,
    prefix*suffix*.e)]: the name pattern alone when the prefix is absolute
    or the directory is the empty string, the directory followed by the
    name pattern when the directory ends with a slash, and
    [directory/prefix*suffix*.e] otherwise; it is the pattern the
    specification words exactly in that last case. *)
Theorem resolve_glob_sorted_union
    (glob : string -> bool -> list string)
    (extension : Extension) (directory prefix suffix : string) :
  let matches :=
    concat (map (fun e => glob (glob_pattern directory prefix suffix e) false)
                (extensions extension)) in
  StronglySorted str_le (resolve_glob glob extension directory prefix suffix) /\
  resolve_glob glob extension directory prefix suffix ≡ₚ matches /\
  (forall p, p ∈ resolve_glob glob extension directory prefix suffix <->
             exists e, e ∈ extensions extension /\
                       p ∈ glob (glob_pattern directory prefix suffix e) false) /\
  (matches = [] -> resolve_glob glob extension directory prefix suffix = []) /\
  (forall e, glob_pattern directory prefix suffix e =
     (let name := prefix +:+ "*" +:+ suffix +:+ "*." +:+ e in
      if Str.startswith prefix "/" then name
      else if String.eqb directory EmptyString then name
      else if Str.ends_with_char directory "/" then directory +:+ name
      else directory +:+ "/" +:+ name)) /\
  (forall e, glob_pattern directory prefix suffix e
             = claimed_pattern directory prefix suffix e
             <-> Str.startswith prefix "/" = false /\ directory <> EmptyString /\
                 Str.ends_with_char directory "/" = false).
Proof.
  cbv zeta. rewrite resolve_glob_eq. repeat apply conj.
  - apply sorted_StronglySorted.
  - apply sorted_Permutation.
  - intros p. rewrite sorted_Permutation, list_elem_of_In, in_concat. split.
    + intros (l & Hl & Hp). apply in_map_iff in Hl as (e & <- & He).
      exists e. now rewrite !list_elem_of_In.
    + intros (e & He & Hp). rewrite list_elem_of_In in He, Hp.
      eexists. split; [|exact Hp]. apply in_map_iff. eauto.
  - intros ->. reflexivity.
  - intros e. apply glob_pattern_cases.
  - intros e. apply glob_pattern_as_claimed.
Qed.

(** The Nikon and Canon frames of [raw], in one sorted list. *)
Lemma resolve_glob_sorted_union_witness :
  resolve_glob demo_glob (ExtList ["NEF"; "CR2"]) "raw" EmptyString "01"
    = ["raw/a_01.CR2"; "raw/a_01.NEF"; "raw/b_01.NEF"] /\
  glob_pattern "raw" EmptyString "01" "NEF" = "raw/*01*.NEF" /\
  glob_pattern "raw" EmptyString "01" "NEF"
    = claimed_pattern "raw" EmptyString "01" "NEF" /\
  resolve_glob demo_glob (ExtStr "ARW") "raw" EmptyString "01" = [].
Proof.
  destruct (resolve_glob_sorted_union demo_glob (ExtList ["NEF"; "CR2"])
              "raw" EmptyString "01") as (Hs & Hp & _ & _ & Hpat & Hclaimed).
  destruct (resolve_glob_sorted_union demo_glob (ExtStr "ARW")
              "raw" EmptyString "01") as (_ & _ & _ & Hnil & _).
  split; [|split; [|split]].
  - vm_compute. reflexivity.
  - rewrite Hpat. reflexivity.
  - apply Hclaimed. split; [reflexivity|]. split; [discriminate|reflexivity].
  - apply Hnil. reflexivity.
Defined.

(** C9, counterexample.  With the absolute prefix [/abs/a], [os.path.join]
    drops the directory [raw]: the code globs [/abs/a*_01*.NEF] and returns
    the frame of [/abs], where the pattern [raw//abs/a*_01*.NEF] of the
    specification's wording matches nothing.  With the empty string for the
    directory, the code globs [a*_01*.NEF] in the current directory, and
    the pattern of the wording is in the root directory. *)
Lemma resolve_glob_pattern_not_as_claimed :
  glob_pattern "raw" "/abs/a" "_01" "NEF" = "/abs/a*_01*.NEF" /\
  claimed_pattern "raw" "/abs/a" "_01" "NEF" = "raw//abs/a*_01*.NEF" /\
  resolve_glob abs_glob (ExtStr "NEF") "raw" "/abs/a" "_01" = ["/abs/a_01.NEF"] /\
  resolve_glob abs_glob (ExtStr "NEF") "raw" "/abs/a" "_01"
    <> sorted (concat (map (fun e => abs_glob (claimed_pattern "raw" "/abs/a" "_01" e)
                                              false)
                           (extensions (ExtStr "NEF")))) /\
  glob_pattern EmptyString "a" "_01" "NEF" = "a*_01*.NEF" /\
  claimed_pattern EmptyString "a" "_01" "NEF" = "/a*_01*.NEF".
Proof.
  repeat apply conj; try (vm_compute; reflexivity).
  vm_compute. discriminate.
Qed.

(** [getDfnstationConfigFile] globs [directory/*dfnstation*.cfg].
    If the string [os.path.join(directory, "dfnstation.cfg")] is among the matches,
    [dfnstation.cfg] is returned, whatever else matches; otherwise the first
    match in sorted order, a least one among the matches; with no match the
    empty string.  No case raises, and the only effect of several matches
    is one warning. *)
Lemma config_file_preference
    (glob : string -> bool -> list string) (directory : string) :
  let found := glob (path_join directory "*dfnstation*.cfg") false in
  let standard := path_join directory stdcfgfilename in
  let result := getDfnstationConfigFile glob directory in
  (standard ∈ found -> fst result = Ok "dfnstation.cfg") /\
  (standard ∉ found -> forall c cs, sorted found = c :: cs ->
     fst result = Ok c /\ c ∈ found /\ forall x, x ∈ found -> str_le c x) /\
  (found = [] -> result = (Ok EmptyString, [])) /\
  (exists v, fst result = Ok v) /\
  snd result = (if (1 <? length found)%nat then [several_cfg_warning] else []).
Proof.
  cbv zeta. unfold getDfnstationConfigFile.
  change (resolve_glob glob (ExtStr "cfg") directory EmptyString "dfnstation")
    with (sorted (glob (path_join directory "*dfnstation*.cfg") false)).
  set (found := glob (path_join directory "*dfnstation*.cfg") false).
  assert (Hlen : length (sorted found) = length found)
    by (apply Permutation_length, sorted_Permutation).
  assert (Hin : forall x, x ∈ sorted found <-> x ∈ found)
    by (intros x; now rewrite sorted_Permutation).
  rewrite Hlen.
  split; [|split; [|split; [|split]]].
  - intros Hstd. rewrite bool_decide_eq_true_2 by now apply Hin. reflexivity.
  - intros Hstd c cs Hs.
    rewrite bool_decide_eq_false_2 by now rewrite Hin.
    rewrite Hs in Hlen. rewrite <- Hlen, Hs.
    split; [reflexivity|]. eapply sorted_head, Hs.
  - intros Hnil. rewrite Hnil. reflexivity.
  - case_bool_decide; [eauto|].
    destruct (sorted found) as [|c cs] eqn:E; rewrite <- Hlen; simpl; eauto.
  - case_bool_decide; [reflexivity|].
    now destruct (1 <=? length found)%nat.
Qed.

(** A station directory holding [dfnstation.cfg] and an older file, and a
    backup directory holding two files of other names. *)
Lemma config_file_preference_witness :
  getDfnstationConfigFile demo_glob "station"
    = (Ok "dfnstation.cfg", [several_cfg_warning]) /\
  fst (getDfnstationConfigFile demo_glob "backup")
    = Ok "backup/2017_dfnstation_old.cfg" /\
  getDfnstationConfigFile demo_glob "empty" = (Ok EmptyString, []).
Proof.
  destruct (config_file_preference demo_glob "station") as (Hstd & _ & _ & _ & Hw).
  destruct (config_file_preference demo_glob "backup") as (_ & Hfirst & _ & _ & _).
  destruct (config_file_preference demo_glob "empty") as (_ & _ & Hnone & _ & _).
  split; [|split].
  - apply injective_projections; [apply Hstd | apply Hw].
    apply list_elem_of_In. vm_compute. left. reflexivity.
  - refine (proj1 (Hfirst _ "backup/2017_dfnstation_old.cfg"
                          ["backup/x_dfnstation.cfg"] _)).
    + intros H. apply list_elem_of_In in H. vm_compute in H.
      destruct H as [H|[H|[]]]; discriminate H.
    + vm_compute. reflexivity.
  - apply Hnone. reflexivity.
Defined.

(** C8.  The standard file is looked for as the string
    [os.path.join(directory, "dfnstation.cfg")] among the paths as
    [glob.glob] writes them, and the two writings can differ.  For the
    directory [station//], which holds [dfnstation.cfg] and an older file,
    the candidates are [station/dfnstation.cfg] and
    [station/2017_dfnstation_old.cfg]; the string looked for is
    [station//dfnstation.cfg], which is not among them; so the standard
    file, present among the candidates, does not win: the older file, first
    in sorted order, is returned. *)
Theorem config_file_standard_file_missed :
  let found := slash_glob (path_join "station//" "*dfnstation*.cfg") false in
  path_join "station//" "*dfnstation*.cfg" = "station//*dfnstation*.cfg" /\
  found = ["station/dfnstation.cfg"; "station/2017_dfnstation_old.cfg"] /\
  (exists c, c ∈ found /\ basename c = stdcfgfilename) /\
  path_join "station//" stdcfgfilename = "station//dfnstation.cfg" /\
  (path_join "station//" stdcfgfilename ∉ found) /\
  getDfnstationConfigFile slash_glob "station//"
    = (Ok "station/2017_dfnstation_old.cfg", [several_cfg_warning]) /\
  fst (getDfnstationConfigFile slash_glob "station//") <> Ok stdcfgfilename.
Proof.
  cbv zeta. repeat apply conj; try (vm_compute; reflexivity).
  - exists "station/dfnstation.cfg". split; [|vm_compute; reflexivity].
    apply list_elem_of_In. left. reflexivity.
  - intros H. apply list_elem_of_In in H. vm_compute in H.
    destruct H as [H|[H|[]]]; discriminate H.
  - vm_compute. discriminate.
Qed.

Section FindFacts.
Import Str StrSpec StrFacts.



End FindFacts.



(** * Time normalisation *)

Section NumFacts.
Import Num.

Lemma digits_fuel_lower (fuel : nat) (n : Z) (acc : string) :
  (Str.len acc + (if fuel is O then 0 else 1) <= Str.len (digits_fuel fuel n acc))%nat.
Proof.
  revert n acc. induction fuel as [|fuel IH]; intros n acc; simpl; [lia|].
  destruct (n / 10 =? 0); simpl; [lia|].
  specialize (IH (n / 10) (String (digit_char (n mod 10)) acc)).
  simpl in IH. destruct fuel; lia.
Qed.

(** With enough fuel, [n] is written with at most [k] digits exactly when
    it is below [10 ^ k]. *)
Lemma digits_fuel_bound (fuel : nat) (n : Z) (acc : string) (k : nat) :
  0 <= n < 2 ^ Z.of_nat fuel -> (1 <= k)%nat ->
  (Str.len (digits_fuel fuel n acc) <= k + Str.len acc)%nat <-> n < 10 ^ Z.of_nat k.
Proof.
  revert n acc k. induction fuel as [|fuel IH]; intros n acc k Hn Hk.
  - simpl in *. assert (n = 0) as -> by lia.
    split; [intros _; apply Z.pow_pos_nonneg; lia | lia].
  - cbn [digits_fuel].
    assert (Hpow : 10 ^ Z.of_nat k = 10 * 10 ^ Z.of_nat (k - 1)).
    { replace (Z.of_nat k) with (Z.succ (Z.of_nat (k - 1))) by lia.
      rewrite Z.pow_succ_r by lia. reflexivity. }
    assert (Hpos : 0 < 10 ^ Z.of_nat (k - 1)) by (apply Z.pow_pos_nonneg; lia).
    destruct (n / 10 =? 0) eqn:E.
    + apply Z.eqb_eq in E. simpl.
      assert (n < 10) by (apply Z.div_small_iff in E; lia).
      split; [intros _; nia | lia].
    + apply Z.eqb_neq in E.
      assert (Hn10 : 10 <= n).
      { destruct (Z_lt_le_dec n 10) as [Hlt|]; [|assumption].
        exfalso. apply E, Z.div_small. lia. }
      assert (Hfuel : 0 <= n / 10 < 2 ^ Z.of_nat fuel).
      { split; [apply Z.div_pos; lia|].
        apply Z.div_lt_upper_bound; [lia|].
        replace (Z.of_nat (S fuel)) with (Z.succ (Z.of_nat fuel)) in Hn by lia.
        rewrite Z.pow_succ_r in Hn by lia. nia. }
      destruct (decide (k = 1%nat)) as [->|Hk1].
      * pose proof (digits_fuel_lower fuel (n / 10)
                      (String (digit_char (n mod 10)) acc)) as Hlow.
        destruct fuel; simpl in *; lia.
      * specialize (IH (n / 10) (String (digit_char (n mod 10)) acc) (k - 1)%nat
                       Hfuel ltac:(lia)).
        simpl Str.len in IH. rewrite Hpow.
        split.
        -- intros Hlen.
           assert (Hq : n / 10 < 10 ^ Z.of_nat (k - 1)) by (apply IH; lia).
           pose proof (Z.mod_pos_bound n 10 ltac:(lia)) as Hmod.
           pose proof (Z.div_mod n 10 ltac:(lia)) as Hdm. lia.
        -- intros Hlt.
           assert (Hq : n / 10 < 10 ^ Z.of_nat (k - 1))
             by (apply Z.div_lt_upper_bound; lia).
           apply IH in Hq. lia.
Qed.

Lemma digits_bound (n : Z) (k : nat) :
  0 <= n -> (1 <= k)%nat ->
  (Str.len (digits n) <= k)%nat <-> n < 10 ^ Z.of_nat k.
Proof.
  intros Hn Hk. unfold digits.
  rewrite <- (digits_fuel_bound (S (Z.to_nat (Z.log2 n))) n EmptyString k);
    [simpl; lia | | exact Hk].
  split; [exact Hn|].
  destruct (Z.eq_dec n 0) as [->|Hne]; [reflexivity|].
  rewrite Nat2Z.inj_succ, Z2Nat.id by apply Z.log2_nonneg.
  apply Z.log2_spec. lia.
Qed.

(** More than seven digits: ten million or more. *)
Lemma int_digits_more_than_7 (z : Z) :
  (7 < int_digits z)%nat <-> 10 ^ 7 <= Z.abs z.
Proof.
  unfold int_digits.
  pose proof (digits_bound (Z.abs z) 7 (Z.abs_nonneg z) ltac:(lia)) as H.
  change (Z.of_nat 7) with 7 in H. lia.
Qed.

Lemma str_of_int_len (z : Z) :
  Str.len (str_of_int z) = (int_digits z + (if (z <? 0)%Z then 1 else 0))%nat.
Proof.
  unfold str_of_int, int_digits. destruct (Z.ltb_spec z 0).
  - rewrite Z.abs_neq by lia. simpl. lia.
  - rewrite Z.abs_eq by lia. lia.
Qed.

End NumFacts.

Section TimeFactoryFacts.
Import Num.

Variable Time_init : TimeArg -> option string -> string -> Alloc Time.

(** The numeric branch (lines 62-66) once the integer part is known: one
    call of the constructor, whose outcome is the outcome. *)
Lemma time_factory_float (f : float) (z : Z) (next : nat) :
  int_of_float f = Ok z ->
  time_factory Time_init (VFloat f) next =
    Time_init (ArgFloat f)
      (Some (if (7 <? Str.len (str_of_int z))%nat then "unix" else "jd")) "utc"
      next.
Proof.
  intros H. unfold time_factory, lift, mbind, Alloc_bind. rewrite H.
  now destruct (7 <? Str.len (str_of_int z))%nat.
Qed.

(** For an integer part that is not negative, the code's test is the
    specification's: more than seven digits, that is ten million or more,
    gives Unix time, anything below gives a Julian Day. *)
Lemma time_factory_digit_rule (f : float) (z : Z) (next : nat) :
  int_of_float f = Ok z -> 0 <= z ->
  ((7 < int_digits z)%nat <-> 10 ^ 7 <= z) /\
  time_factory Time_init (VFloat f) next =
    Time_init (ArgFloat f)
      (Some (if (7 <? int_digits z)%nat then "unix" else "jd")) "utc" next.
Proof.
  intros H Hz. split.
  - rewrite int_digits_more_than_7. lia.
  - rewrite (time_factory_float f z next H), str_of_int_len.
    destruct (Z.ltb_spec z 0); [lia|]. now rewrite Nat.add_0_r.
Qed.

Lemma binary_round_aux_sign (sx : bool) (mx ex : Z) (lx : location) :
  match binary_round_aux prec emax sx mx ex lx with
  | S754_finite s _ _ => s = sx
  | _ => True
  end.
Proof.
  unfold binary_round_aux.
  destruct (shr_fexp prec emax mx ex lx) as [mrs' e'].
  destruct (shr_fexp prec emax _ e' loc_Exact) as [mrs'' e''].
  destruct (shr_m mrs''); try exact I.
  now destruct (Z.leb e'' (Z.sub emax prec)).
Qed.

Lemma float_of_ratio_int (n : Z) (d : positive) (z : Z) :
  int_of_float (float_of_ratio false n d) = Ok z -> 0 <= z.
Proof.
  unfold float_of_ratio. destruct n as [|p|p]; simpl; try (intros [= <-]; lia).
  destruct (SFdiv_core_binary prec emax (Zpos p) 0 (Zpos d) 0) as [[mz ez] lz].
  pose proof (binary_round_aux_sign false mz ez lz) as Hs.
  destruct (binary_round_aux prec emax false mz ez lz) as [s|s| |s m e];
    simpl; try discriminate; [intros [= <-]; lia|].
  subst s. simpl. intros [= <-]. apply Z.shiftl_nonneg. lia.
Qed.

(** A string the pattern accepts is read as a float that is not negative,
    and then treated as that float is. *)
Lemma time_factory_decimal_string (s : string) :
  re_match_decimal s = true ->
  exists f, float_of_str s = Ok f /\
            (forall next, time_factory Time_init (VStr s) next
                          = time_factory Time_init (VFloat f) next) /\
            (forall z, int_of_float f = Ok z -> 0 <= z).
Proof.
  intros Hm. destruct (float_of_str s) as [f|e] eqn:Hf.
  - exists f. split; [reflexivity|]. split.
    + intros next. unfold time_factory at 1. rewrite Hm, Hf. reflexivity.
    + unfold float_of_str in Hf. rewrite Hm in Hf.
      destruct (span_digits 0 0 s) as [[ip n1] r1].
      destruct (span_digits ip 0 (Str.drop 1 r1)) as [[num k] r3].
      injection Hf as <-. apply float_of_ratio_int.
  - unfold float_of_str in Hf. rewrite Hm in Hf.
    destruct (span_digits 0 0 s) as [[ip n1] r1].
    destruct (span_digits ip 0 (Str.drop 1 r1)) as [[num k] r3].
    discriminate Hf.
Qed.

(** The two strings of the specification: the first goes to the
    constructor as a Julian Day, the second as a Unix time. *)
Lemma time_factory_julian_day_example (next : nat) :
  time_factory Time_init (VStr "2457754.5") next =
    Time_init (ArgFloat (S754_finite false 5277987599548416 (-31)))
      (Some "jd") "utc" next.
Proof. reflexivity. Qed.

Lemma time_factory_unix_example (next : nat) :
  time_factory Time_init (VStr "1498800000.0") next =
    Time_init (ArgFloat (S754_finite false 6286422835200000 (-22)))
      (Some "unix") "utc" next.
Proof. reflexivity. Qed.

(** Floats without an integer part end in CPython's conversion errors. *)
Lemma time_factory_nan (next : nat) :
  time_factory Time_init (VFloat S754_nan) next =
    (Raise (ValueError "cannot convert float NaN to integer"), next).
Proof. reflexivity. Qed.

Lemma time_factory_infinity (s : bool) (next : nat) :
  time_factory Time_init (VFloat (S754_infinity s)) next =
    (Raise (OverflowError "cannot convert float infinity to integer"), next).
Proof. reflexivity. Qed.

End TimeFactoryFacts.

(** C4.  On a [Time] object [time_factory] returns that very object: same
    identity, same content, and no object is built on the way (the
    constructor is not called and the allocation counter does not move). *)
Theorem time_factory_identity
    (Time_init : TimeArg -> option string -> string -> Alloc Time)
    (t : Time) (next : nat) :
  time_factory Time_init (VTime t) next = (Ok t, next).
Proof. reflexivity. Qed.

(** C1, at the failing input.  The float [-1234567.0] has an integer part
    of seven digits, yet [str(int(f))] is ["-1234567"], eight characters
    with the sign, and [time_factory] hands it to the constructor as a Unix
    time. *)
Theorem time_factory_counts_the_sign
    (Time_init : TimeArg -> option string -> string -> Alloc Time)
    (next : nat) :
  valid_binary Num.prec Num.emax minus_1234567 = true /\
  Num.float_of_int (-1234567) = Ok minus_1234567 /\
  Num.int_of_float minus_1234567 = Ok (-1234567) /\
  int_digits (-1234567) = 7%nat /\
  Num.str_of_int (-1234567) = "-1234567" /\
  time_factory Time_init (VFloat minus_1234567) next =
    Time_init (ArgFloat minus_1234567) (Some "unix") "utc" next.
Proof. repeat split. Qed.

Section RoundingFacts.

Lemma float_60_is_60 : Num.float_of_int 60 = Ok float_60.
Proof. reflexivity. Qed.

(** The check on each integer from 1 to 60: it passes for the divisors of
    60, which are the listed values, and raises [TypeError] otherwise. *)
Lemma rounding_factor_table :
  Forall (fun z =>
            rounding_factor_check (VInt z) =
              (if 60 mod z =? 0 then Ok z else Raise (TypeError rounding_msg)) /\
            bool_decide (z ∈ valid_rounding_factors) = (60 mod z =? 0))
         (seqZ 1 60).
Proof. vm_compute seqZ. repeat constructor. Qed.

Lemma rounding_factor_small (z : Z) :
  1 <= z <= 60 ->
  (rounding_factor_check (VInt z) = Ok z <-> (z | 60)) /\
  (rounding_factor_check (VInt z) = Raise (TypeError rounding_msg) <-> ~ (z | 60)) /\
  ((z | 60) <-> z ∈ valid_rounding_factors).
Proof.
  intros Hz. pose proof rounding_factor_table as Ht.
  rewrite Forall_forall in Ht.
  destruct (Ht z) as [Hc Hv]; [apply elem_of_seqZ; lia|].
  rewrite Hc. rewrite <- (Z.mod_divide 60 z) by lia.
  destruct (Z.eqb_spec (60 mod z) 0) as [E|E].
  - apply bool_decide_eq_true in Hv. repeat split; auto; congruence.
  - apply bool_decide_eq_false in Hv. repeat split; auto; congruence.
Qed.

(** Beyond 60 in absolute value nothing passes the check: no integer
    multiple of [n] is 60. *)
Lemma rounding_factor_large (z : Z) :
  60 < Z.abs z -> is_ok (rounding_factor_check (VInt z)) = false.
Proof.
  intros Hz. unfold rounding_factor_check.
  destruct (Num.float_div_int float_60 z) as [q|]; [|reflexivity].
  cbn [mbind Result_bind].
  destruct (Num.int_of_float q) as [k|]; [|reflexivity].
  cbn [mbind Result_bind].
  destruct (Z.eqb_spec (z * k) 60) as [E|E]; [|reflexivity].
  exfalso. apply (f_equal Z.abs) in E. rewrite Z.abs_mul in E.
  destruct (Z.eq_dec k 0) as [->|Hk]; [simpl in E; lia|].
  assert (1 <= Z.abs k) by lia. simpl in E. nia.
Qed.

Lemma rounding_factor_not_int (n : PyVal) :
  (forall z, n <> VInt z) ->
  rounding_factor_check n = Raise (TypeError rounding_msg).
Proof. destruct n; try reflexivity. intros H. now destruct (H z). Qed.

(** The values named in the specification. *)
Lemma rounding_factor_7 :
  rounding_factor_check (VInt 7) = Raise (TypeError rounding_msg).
Proof. reflexivity. Qed.

Lemma rounding_factor_30 : rounding_factor_check (VInt 30) = Ok 30.
Proof. reflexivity. Qed.

(** Negative divisors of 60 pass the check as well. *)
Lemma rounding_factor_minus_30 : rounding_factor_check (VInt (-30)) = Ok (-30).
Proof. reflexivity. Qed.

End RoundingFacts.

(** C2, at the failing input.  [0] is an integer that does not divide 60,
    but the check divides by it before comparing: whatever the time given,
    [round_to_nearest_n_seconds] ends with [ZeroDivisionError] and not with
    the [TypeError] kept for invalid factors. *)
Theorem rounding_factor_zero
    (Time_init : TimeArg -> option string -> string -> Alloc Time)
    (jd2 : Time -> Num.float) (Time_sub : Time -> TimeDelta -> Alloc Time)
    (itime : PyVal) (next : nat) :
  ~ (0 | 60) /\
  round_to_nearest_n_seconds Time_init jd2 Time_sub itime (VInt 0) next =
    (Raise (ZeroDivisionError "float division by zero"), next) /\
  round_to_nearest_n_seconds Time_init jd2 Time_sub itime (VInt 0) next <>
    (Raise (TypeError rounding_msg), next).
Proof.
  split; [|split].
  - intros [k Hk]. lia.
  - reflexivity.
  - discriminate.
Qed.

(** * Further properties of the log search *)

Section LogSearchOutcomes.
Import Str StrSpec StrFacts.

Variables (key module : string).

Local Abbreviation sep := (separator key module).
Local Abbreviation cand := (candidate key module).

(** Under ['first'] the loop is decided by the first candidate line. *)
Lemma scan_first_total (lines : list string) (found : bool)
    (ro : option LogValue) :
  scan_lines key module "first" None lines found ro =
    match List.find cand lines with
    | None => Ok (found, ro)
    | Some line =>
        if contains sep line then Ok (true, Some (One (line_value sep line)))
        else Raise (IndexError "list index out of range")
    end.
Proof.
  induction lines as [|l lines IH]; [reflexivity|].
  cbn [List.find]. destruct (cand l) eqn:Hc.
  - rewrite scan_candidate by exact Hc. reflexivity.
  - rewrite scan_other by exact Hc. exact IH.
Qed.

(** Under ['list'] the loop reads every line, and fails at the first
    candidate line without the separator. *)
Lemma scan_list_total (lines : list string) (found : bool) (acc : list string) :
  scan_lines key module "list" None lines found (Some (Many acc)) =
    if forallb (line_ok key module) lines
    then Ok (found || existsb cand lines,
             Some (Many (acc ++ map (line_value sep) (List.filter cand lines))))
    else Raise (IndexError "list index out of range").
Proof.
  revert found acc. induction lines as [|l lines IH]; intros found acc.
  - simpl. now rewrite orb_false_r, List.app_nil_r.
  - cbn [forallb existsb List.filter]. unfold line_ok at 1.
    destruct (cand l) eqn:Hc.
    + rewrite scan_candidate by exact Hc. cbn [implb].
      destruct (contains sep l); [|reflexivity].
      change (String.eqb "list" "first") with false. cbv iota.
      cbn [return_object_append mbind Result_bind andb].
      rewrite IH. destruct (forallb _ lines); [|reflexivity].
      cbn [map]. now rewrite orb_true_r, <- List.app_assoc.
    + rewrite scan_other by exact Hc. cbn [implb andb orb]. apply IH.
Qed.

(** The same two facts when the reading may fail after the lines. *)
Lemma scan_first_any (failure : option PyExc) (lines : list string)
    (found : bool) (ro : option LogValue) :
  scan_lines key module "first" failure lines found ro =
    match List.find cand lines with
    | None => match failure with Some e => Raise e | None => Ok (found, ro) end
    | Some line =>
        if contains sep line then Ok (true, Some (One (line_value sep line)))
        else Raise (IndexError "list index out of range")
    end.
Proof.
  induction lines as [|l lines IH]; [reflexivity|].
  cbn [List.find]. destruct (cand l) eqn:Hc.
  - rewrite scan_candidate by exact Hc. reflexivity.
  - rewrite scan_other by exact Hc. exact IH.
Qed.

Lemma scan_list_any (failure : option PyExc) (lines : list string)
    (found : bool) (acc : list string) :
  scan_lines key module "list" failure lines found (Some (Many acc)) =
    if forallb (line_ok key module) lines
    then match failure with
         | Some e => Raise e
         | None =>
             Ok (found || existsb cand lines,
                 Some (Many (acc ++ map (line_value sep) (List.filter cand lines))))
         end
    else Raise (IndexError "list index out of range").
Proof.
  revert found acc. induction lines as [|l lines IH]; intros found acc.
  - simpl. destruct failure; [reflexivity|].
    now rewrite orb_false_r, List.app_nil_r.
  - cbn [forallb existsb List.filter]. unfold line_ok at 1.
    destruct (cand l) eqn:Hc.
    + rewrite scan_candidate by exact Hc. cbn [implb].
      destruct (contains sep l); [|reflexivity].
      change (String.eqb "list" "first") with false. cbv iota.
      cbn [return_object_append mbind Result_bind andb].
      rewrite IH. destruct (forallb _ lines); [|reflexivity].
      destruct failure; [reflexivity|].
      cbn [map]. now rewrite orb_true_r, <- List.app_assoc.
    + rewrite scan_other by exact Hc. cbn [implb andb orb]. apply IH.
Qed.

Lemma find_none_existsb (lines : list string) :
  List.find cand lines = None <-> existsb cand lines = false.
Proof.
  induction lines as [|l lines IH]; simpl; [tauto|].
  destruct (cand l); simpl; [split; discriminate | exact IH].
Qed.

Lemma find_filter_head (lines : list string) :
  List.find cand lines = head (List.filter cand lines).
Proof.
  induction lines as [|l lines IH]; simpl; [reflexivity|].
  destruct (cand l); [reflexivity | exact IH].
Qed.

Lemma find_app_first (pre post : list string) (line : string) :
  Forall (fun l => cand l = false) pre -> cand line = true ->
  List.find cand (pre ++ line :: post) = Some line.
Proof.
  induction 1 as [|l pre Hl _ IH]; intros Hc; simpl.
  - now rewrite Hc.
  - rewrite Hl. now apply IH.
Qed.

Lemma forallb_line_ok_filter (lines : list string) :
  forallb (line_ok key module) lines = true ->
  Forall (fun l => contains sep l = true) (List.filter cand lines).
Proof.
  induction lines as [|l lines IH]; simpl; [constructor|].
  unfold line_ok at 1. intros [Hl Hrest]%andb_prop.
  destruct (cand l); [|now apply IH].
  constructor; [exact Hl | now apply IH].
Qed.

Lemma rstrip_no_trailing_space (s : string) : ends_with_space (rstrip s) = false.
Proof.
  induction s as [|c s IH]; [reflexivity|]. cbn [rstrip].
  destruct (rstrip s) as [|d r] eqn:E.
  - destruct (is_space c) eqn:Hc; [reflexivity|]. simpl. exact Hc.
  - exact IH.
Qed.

Lemma rstrip_all_space (s : string) : all_space s = true -> rstrip s = EmptyString.
Proof.
  induction s as [|c s IH]; [reflexivity|]. cbn [all_space rstrip].
  intros [Hc Hs]%andb_prop. now rewrite (IH Hs), Hc.
Qed.

Lemma line_value_no_trailing_space (line : string) :
  ends_with_space (line_value sep line) = false.
Proof.
  unfold line_value. destruct (partition sep line) as [[b a]|]; [|reflexivity].
  apply rstrip_no_trailing_space.
Qed.

End LogSearchOutcomes.

(** X1.  Under ['first'] the outcome is decided by the first line that
    contains both the key and the module: with no such line the search fails
    with the key-not-found [KeyError]; if that line holds the separator its
    value is returned; if not, the search ends with [IndexError].  Later
    lines play no part. *)
Theorem search_first_outcome
    (fs : gmap string FileState) (log_file text key module : string) :
  fs !! log_file = Some (readable text) ->
  search_dfn_operation_log fs log_file key module "first" =
    match List.find (candidate key module) (file_lines (universal_newlines text)) with
    | None => Raise (KeyError (not_found_msg key module log_file))
    | Some line =>
        if Str.contains (separator key module) line
        then Ok (One (line_value (separator key module) line))
        else Raise (IndexError "list index out of range")
    end.
Proof.
  intros Hfs. rewrite (search_open key module fs _ _ _ Hfs) by auto.
  rewrite scan_first_total.
  destruct (List.find _ _) as [line|]; [|reflexivity].
  now destruct (Str.contains _ line).
Qed.

Lemma search_first_outcome_witness :
  search_dfn_operation_log {[ "op.log" := readable leostick_log ]} "op.log"
    "leostick_version" "interval_control_lin" "first"
  = Ok (One "mem error fixed, built: 10:56:18").
Proof.
  rewrite (search_first_outcome _ "op.log" leostick_log); [|reflexivity].
  vm_compute. reflexivity.
Defined.

(** X2.  Under ['list'] the whole file is read: if some line containing the
    key and the module lacks the separator the search ends with
    [IndexError], whatever the other lines hold; otherwise it fails with the
    key-not-found [KeyError] when no line contains both, and else returns
    the values of all such lines in file order. *)
Theorem search_list_outcome
    (fs : gmap string FileState) (log_file text key module : string) :
  fs !! log_file = Some (readable text) ->
  search_dfn_operation_log fs log_file key module "list" =
    if forallb (line_ok key module) (file_lines (universal_newlines text))
    then
      if existsb (candidate key module) (file_lines (universal_newlines text))
      then Ok (Many (map (line_value (separator key module))
                         (List.filter (candidate key module)
                                      (file_lines (universal_newlines text)))))
      else Raise (KeyError (not_found_msg key module log_file))
    else Raise (IndexError "list index out of range").
Proof.
  intros Hfs. rewrite (search_open key module fs _ _ _ Hfs) by auto.
  change (String.eqb "list" "list") with true. cbv iota.
  rewrite scan_list_total.
  destruct (forallb _ _); [|reflexivity].
  cbn [mbind Result_bind orb app].
  now destruct (existsb _ _).
Qed.

Lemma search_list_outcome_witness :
  search_dfn_operation_log {[ "op.log" := readable leostick_log ]} "op.log"
    "leostick_version" "interval_control_lin" "list"
  = Ok (Many ["mem error fixed, built: 10:56:18"; "second build"]).
Proof.
  rewrite (search_list_outcome _ "op.log" leostick_log); [|reflexivity].
  vm_compute. reflexivity.
Defined.

(** X3.  The two modes agree: whenever ['list'] returns a list, the list is
    not empty, it has one value per line containing the key and the module,
    and ['first'] on the same log returns its first element. *)
Theorem search_first_is_head_of_list
    (fs : gmap string FileState) (log_file text key module : string)
    (vs : list string) :
  fs !! log_file = Some (readable text) ->
  search_dfn_operation_log fs log_file key module "list" = Ok (Many vs) ->
  length vs = length (List.filter (candidate key module)
                                  (file_lines (universal_newlines text))) /\
  exists v rest, vs = v :: rest /\
    search_dfn_operation_log fs log_file key module "first" = Ok (One v).
Proof.
  intros Hfs. rewrite (search_open key module fs _ _ _ Hfs) by auto.
  rewrite (search_open key module fs _ _ _ Hfs) by auto.
  change (String.eqb "list" "list") with true. cbv iota.
  rewrite scan_list_total, scan_first_total.
  destruct (forallb _ _) eqn:Hok; [|discriminate].
  cbn [mbind Result_bind orb app].
  destruct (existsb _ _) eqn:Hex; [|discriminate].
  intros [= <-]. split; [now rewrite length_map|].
  apply forallb_line_ok_filter in Hok.
  rewrite find_filter_head.
  destruct (List.filter _ _) as [|l ls] eqn:Hf.
  - exfalso. pose proof (find_filter_head key module
                           (file_lines (universal_newlines text))) as Hh.
    rewrite Hf in Hh. apply find_none_existsb in Hh. congruence.
  - exists (line_value (separator key module) l),
           (map (line_value (separator key module)) ls).
    split; [reflexivity|]. cbn [head].
    apply Forall_cons in Hok as [Hl _]. now rewrite Hl.
Qed.

Lemma search_first_is_head_of_list_witness :
  exists v rest,
    ["mem error fixed, built: 10:56:18"; "second build"] = v :: rest /\
    search_dfn_operation_log {[ "op.log" := readable leostick_log ]} "op.log"
      "leostick_version" "interval_control_lin" "first" = Ok (One v).
Proof.
  refine (proj2 (search_first_is_head_of_list {[ "op.log" := readable leostick_log ]}
            "op.log" leostick_log "leostick_version" "interval_control_lin"
            _ _ _)).
  - reflexivity.
  - vm_compute. reflexivity.
Defined.

Lemma search_no_file
    (fs : gmap string FileState) (log_file key module results : string) :
  fs !! log_file = None ->
  results = "first" \/ results = "list" ->
  search_dfn_operation_log fs log_file key module results =
    Raise (FileNotFoundError
             ("[Errno 2] No such file or directory: '" +:+ log_file +:+ "'")).
Proof.
  intros Hfs Hm%mode_supported. unfold search_dfn_operation_log, open_lines.
  now rewrite Hm, Hfs.
Qed.

Lemma search_no_open
    (fs : gmap string FileState) (log_file key module results : string)
    (e : PyExc) :
  fs !! log_file = Some (NoOpen e) ->
  results = "first" \/ results = "list" ->
  search_dfn_operation_log fs log_file key module results = Raise e.
Proof.
  intros Hfs Hm%mode_supported. unfold search_dfn_operation_log, open_lines.
  now rewrite Hm, Hfs.
Qed.

(** The function once the mode is accepted and the file is open, for a
    file whose reading may fail. *)
Lemma search_open_any
    (fs : gmap string FileState) (log_file text key module results : string)
    (failure : option PyExc) :
  fs !! log_file = Some (TextFile text failure) ->
  results = "first" \/ results = "list" ->
  search_dfn_operation_log fs log_file key module results =
    '(found, return_object) ←
       scan_lines key module results failure (file_lines (universal_newlines text))
         false (if String.eqb results "list" then Some (Many []) else None);
    if (found : bool) then
      match return_object with
      | Some v => Ok v
      | None => Raise (UnboundLocalError "return_object")
      end
    else Raise (KeyError (not_found_msg key module log_file)).
Proof.
  intros Hfs Hm%mode_supported. unfold search_dfn_operation_log, open_lines.
  now rewrite Hm, Hfs.
Qed.

(** The search under ['first'] and under ['list'], whatever the path leads
    to. *)
Lemma search_first_any
    (fs : gmap string FileState) (log_file key module : string) :
  search_dfn_operation_log fs log_file key module "first" =
    match fs !! log_file with
    | None =>
        Raise (FileNotFoundError
                 ("[Errno 2] No such file or directory: '" +:+ log_file +:+ "'"))
    | Some (NoOpen e) => Raise e
    | Some (TextFile text failure) =>
        match List.find (candidate key module)
                        (file_lines (universal_newlines text)) with
        | None =>
            match failure with
            | Some e => Raise e
            | None => Raise (KeyError (not_found_msg key module log_file))
            end
        | Some line =>
            if Str.contains (separator key module) line
            then Ok (One (line_value (separator key module) line))
            else Raise (IndexError "list index out of range")
        end
    end.
Proof.
  destruct (fs !! log_file) as [[text failure|e]|] eqn:Hfs.
  - rewrite (search_open_any _ _ _ _ _ _ _ Hfs) by auto.
    rewrite scan_first_any.
    destruct (List.find _ _) as [line|].
    + now destruct (Str.contains _ line).
    + now destruct failure.
  - now apply search_no_open; auto.
  - now apply search_no_file; auto.
Qed.

Lemma search_list_any
    (fs : gmap string FileState) (log_file key module : string) :
  search_dfn_operation_log fs log_file key module "list" =
    match fs !! log_file with
    | None =>
        Raise (FileNotFoundError
                 ("[Errno 2] No such file or directory: '" +:+ log_file +:+ "'"))
    | Some (NoOpen e) => Raise e
    | Some (TextFile text failure) =>
        if forallb (line_ok key module) (file_lines (universal_newlines text))
        then
          match failure with
          | Some e => Raise e
          | None =>
              if existsb (candidate key module)
                         (file_lines (universal_newlines text))
              then Ok (Many (map (line_value (separator key module))
                                 (List.filter (candidate key module)
                                    (file_lines (universal_newlines text)))))
              else Raise (KeyError (not_found_msg key module log_file))
          end
        else Raise (IndexError "list index out of range")
    end.
Proof.
  destruct (fs !! log_file) as [[text failure|e]|] eqn:Hfs.
  - rewrite (search_open_any _ _ _ _ _ _ _ Hfs) by auto.
    change (String.eqb "list" "list") with true. cbv iota.
    rewrite scan_list_any.
    destruct (forallb _ _); [|reflexivity].
    destruct failure; [reflexivity|].
    cbn [mbind Result_bind orb app].
    now destruct (existsb _ _).
  - now apply search_no_open; auto.
  - now apply search_no_file; auto.
Qed.

(** X4.  When the reading of the log fails after some lines (bytes that do
    not decode), ['list'] never returns a value: it ends with the
    [IndexError] of a line among those read that has the key and the module
    but not the separator, and else with the error of the read.  ['first']
    still returns the value of the first such line read before the
    failure; it ends with the error of the read only when there was
    none. *)
Theorem search_read_failure
    (fs : gmap string FileState) (log_file text key module : string)
    (e : PyExc) :
  fs !! log_file = Some (TextFile text (Some e)) ->
  search_dfn_operation_log fs log_file key module "list" =
    (if forallb (line_ok key module) (file_lines (universal_newlines text))
     then Raise e
     else Raise (IndexError "list index out of range")) /\
  search_dfn_operation_log fs log_file key module "first" =
    match List.find (candidate key module) (file_lines (universal_newlines text)) with
    | None => Raise e
    | Some line =>
        if Str.contains (separator key module) line
        then Ok (One (line_value (separator key module) line))
        else Raise (IndexError "list index out of range")
    end.
Proof.
  intros Hfs. rewrite search_list_any, search_first_any, Hfs. split; reflexivity.
Qed.

Lemma search_read_failure_witness :
  search_dfn_operation_log broken_log_fs
    "op.log" "leostick_version" "interval_control_lin" "list"
  = Raise (UnicodeDecodeError "invalid start byte") /\
  search_dfn_operation_log broken_log_fs
    "op.log" "leostick_version" "interval_control_lin" "first"
  = Ok (One "mem error fixed, built: 10:56:18").
Proof.
  assert (Hfs : broken_log_fs !! "op.log"
                = Some (TextFile leostick_log
                          (Some (UnicodeDecodeError "invalid start byte"))))
    by reflexivity.
  destruct (search_read_failure broken_log_fs
              "op.log" leostick_log "leostick_version" "interval_control_lin"
              (UnicodeDecodeError "invalid start byte") Hfs) as [Hl Hf].
  split.
  - rewrite Hl. vm_compute. reflexivity.
  - rewrite Hf. vm_compute. reflexivity.
Defined.

(** X5.  What the search returns has the shape the mode asks for: a single
    string under ['first'], a non-empty list under ['list']; and no returned
    value ends in white space, so none carries the newline of its line. *)
Theorem search_result_shape
    (fs : gmap string FileState) (log_file key module results : string)
    (v : LogValue) :
  search_dfn_operation_log fs log_file key module results = Ok v ->
  (results = "first" /\ exists s, v = One s /\ ends_with_space s = false) \/
  (results = "list" /\ exists l, v = Many l /\ l <> [] /\
                       Forall (fun s => ends_with_space s = false) l).
Proof.
  intros H.
  destruct (decide (results = "first")) as [->|H1].
  - left. split; [reflexivity|].
    rewrite search_first_any in H.
    destruct (fs !! log_file) as [[text failure|e]|]; try discriminate.
    destruct (List.find _ _) as [line|]; [|destruct failure; discriminate].
    destruct (Str.contains _ line); [|discriminate].
    injection H as <-. eexists. split; [reflexivity|].
    apply line_value_no_trailing_space.
  - destruct (decide (results = "list")) as [->|H2].
    + right. split; [reflexivity|].
      rewrite search_list_any in H.
      destruct (fs !! log_file) as [[text failure|e]|]; try discriminate.
      destruct (forallb _ _); [|discriminate].
      destruct failure; [discriminate|].
      destruct (existsb _ _) eqn:Hex; [|discriminate].
      injection H as <-. eexists. split; [reflexivity|]. split.
      * intros Hnil. apply map_eq_nil in Hnil.
        pose proof (find_filter_head key module
                      (file_lines (universal_newlines text))) as Hh.
        rewrite Hnil in Hh. apply find_none_existsb in Hh. congruence.
      * apply Forall_map, Forall_forall. intros l _.
        apply line_value_no_trailing_space.
    + rewrite search_unsupported in H by assumption. discriminate.
Qed.

Lemma search_result_shape_witness :
  exists l, Many ["mem error fixed, built: 10:56:18"; "second build"] = Many l /\
            l <> [] /\ Forall (fun s => ends_with_space s = false) l.
Proof.
  destruct (search_result_shape {[ "op.log" := readable leostick_log ]} "op.log"
              "leostick_version" "interval_control_lin" "list"
              (Many ["mem error fixed, built: 10:56:18"; "second build"]))
    as [[H _]|[_ H]].
  - vm_compute. reflexivity.
  - discriminate H.
  - exact H.
Defined.

(** X6.  The search ends with an error of its own code (the [KeyError] of
    an unsupported mode, the [KeyError] of a key not found, the [IndexError]
    of a line without the separator) or with the exception that opening or
    reading the file raises, and with no other: the appending to an unbound
    or ill-typed [return_object] never happens. *)
Theorem search_errors
    (fs : gmap string FileState) (log_file key module results : string)
    (e : PyExc) :
  search_dfn_operation_log fs log_file key module results = Raise e ->
  e = KeyError unsupported_msg \/
  e = KeyError (not_found_msg key module log_file) \/
  e = IndexError "list index out of range" \/
  (fs !! log_file = None /\
   e = FileNotFoundError
         ("[Errno 2] No such file or directory: '" +:+ log_file +:+ "'")) \/
  fs !! log_file = Some (NoOpen e) \/
  (exists text, fs !! log_file = Some (TextFile text (Some e))).
Proof.
  intros H.
  destruct (decide (results = "first")) as [->|H1];
    [|destruct (decide (results = "list")) as [->|H2]].
  - rewrite search_first_any in H.
    destruct (fs !! log_file) as [[text failure|e0]|].
    + destruct (List.find _ _) as [line|].
      * destruct (Str.contains _ line); [discriminate|].
        injection H as <-. auto.
      * destruct failure; injection H as <-; eauto 10.
    + injection H as <-. auto 10.
    + injection H as <-. auto 10.
  - rewrite search_list_any in H.
    destruct (fs !! log_file) as [[text failure|e0]|].
    + destruct (forallb _ _); [|injection H as <-; auto].
      destruct failure; [injection H as <-; eauto 10|].
      destruct (existsb _ _); [discriminate|]. injection H as <-. auto.
    + injection H as <-. auto 10.
    + injection H as <-. auto 10.
  - rewrite search_unsupported in H by assumption. injection H as <-. auto.
Qed.

Lemma search_errors_witness :
  let fs : gmap string FileState := {[ "op.log" := readable leostick_log ]} in
  let e := IndexError "list index out of range" in
  e = KeyError unsupported_msg \/
  e = KeyError (not_found_msg "leostick" "interval_control_lin" "op.log") \/
  e = IndexError "list index out of range" \/
  (fs !! "op.log" = None /\
   e = FileNotFoundError
         ("[Errno 2] No such file or directory: '" +:+ "op.log" +:+ "'")) \/
  fs !! "op.log" = Some (NoOpen e) \/
  (exists text, fs !! "op.log" = Some (TextFile text (Some e))).
Proof.
  intros fs e.
  apply (search_errors fs "op.log" "leostick" "interval_control_lin" "list" e).
  vm_compute. reflexivity.
Defined.

Lemma all_space_app (a b : string) :
  all_space (a +:+ b) = all_space a && all_space b.
Proof.
  induction a as [|c a IH]; simpl; [reflexivity|].
  now rewrite IH, andb_assoc.
Qed.

Lemma line_value_blank (sep line b a : string) :
  StrSpec.first_occurrence sep line b a -> all_space a = true ->
  line_value sep line = EmptyString.
Proof.
  intros H1%StrFacts.first_occurrence_partition Ha.
  unfold line_value. rewrite H1.
  destruct (Str.partition sep a) as [[v a2]|] eqn:E.
  - apply StrFacts.partition_occurs in E. unfold StrSpec.occurs in E.
    rewrite E, all_space_app in Ha. apply andb_prop in Ha as [Hv _].
    now apply rstrip_all_space.
  - now apply rstrip_all_space.
Qed.

(** X7.  A value that is empty is still a value: when the first line
    containing the key and the module has nothing but white space after the
    separator, ['first'] returns the empty string and does not report the key
    as missing. *)
Theorem search_blank_value_is_found
    (fs : gmap string FileState) (log_file text key module : string)
    (pre post : list string) (line b a : string) :
  fs !! log_file = Some (readable text) ->
  file_lines (universal_newlines text) = pre ++ line :: post ->
  Forall (fun l => candidate key module l = false) pre ->
  candidate key module line = true ->
  StrSpec.first_occurrence (separator key module) line b a ->
  all_space a = true ->
  search_dfn_operation_log fs log_file key module "first" = Ok (One EmptyString).
Proof.
  intros Hfs Hl Hpre Hc Hocc Ha.
  rewrite (search_first key module fs log_file text pre post line) by assumption.
  rewrite (line_value_blank _ _ _ _ Hocc Ha).
  assert (Str.contains (separator key module) line = true) as ->; [|reflexivity].
  apply StrFacts.contains_partition. exists b, a.
  now apply StrFacts.first_occurrence_partition.
Qed.

Lemma search_blank_value_is_found_witness :
  search_dfn_operation_log {[ "op.log" := readable blank_value_log ]} "op.log" "k" "m" "first"
  = Ok (One EmptyString).
Proof.
  apply (search_blank_value_is_found {[ "op.log" := readable blank_value_log ]}
           "op.log" blank_value_log "k" "m" [] [] blank_value_log
           "2017-06-30 16:13:28,001, INFO, " ("  " +:+ newline)).
  - reflexivity.
  - vm_compute. reflexivity.
  - constructor.
  - vm_compute. reflexivity.
  - apply StrFacts.partition_first. vm_compute. reflexivity.
  - vm_compute. reflexivity.
Defined.

(** * Further properties of the time normalisation *)

Section TimeFactoryMore.
Import Num.

Lemma int_digits_more_than (z : Z) (k : nat) :
  (1 <= k)%nat -> (k < int_digits z)%nat <-> 10 ^ Z.of_nat k <= Z.abs z.
Proof.
  intros Hk. unfold int_digits.
  pose proof (digits_bound (Z.abs z) k (Z.abs_nonneg z) Hk) as H. lia.
Qed.

(** The test of line 63 as a test on the integer part. *)
Lemma unix_test (z : Z) :
  (7 <? Str.len (str_of_int z))%nat = (10 ^ 7 <=? z) || (z <=? - 10 ^ 6).
Proof.
  rewrite str_of_int_len.
  pose proof (int_digits_more_than z 7 ltac:(lia)) as H7.
  pose proof (int_digits_more_than z 6 ltac:(lia)) as H6.
  change (Z.of_nat 7) with 7 in H7. change (Z.of_nat 6) with 6 in H6.
  destruct (Z.ltb_spec z 0) as [Hz|Hz].
  - destruct (Nat.ltb_spec 7 (int_digits z + 1));
      destruct (Z.leb_spec (10 ^ 7) z); destruct (Z.leb_spec z (- 10 ^ 6));
      simpl; try reflexivity; lia.
  - destruct (Nat.ltb_spec 7 (int_digits z + 0));
      destruct (Z.leb_spec (10 ^ 7) z); destruct (Z.leb_spec z (- 10 ^ 6));
      simpl; try reflexivity; lia.
Qed.

Lemma shr_1_nonneg (mrs : shr_record) : 0 <= shr_m mrs -> 0 <= shr_m (shr_1 mrs).
Proof.
  destruct mrs as [m r s]. simpl.
  destruct m as [|[p|p|]|[p|p|]]; simpl; lia.
Qed.

Lemma iter_pos_shr_1_nonneg (n : positive) (mrs : shr_record) :
  0 <= shr_m mrs -> 0 <= shr_m (SpecFloat.iter_pos shr_1 n mrs).
Proof.
  revert mrs. induction n as [n IH|n IH|]; intros mrs H; simpl.
  - apply IH, IH, shr_1_nonneg, H.
  - apply IH, IH, H.
  - apply shr_1_nonneg, H.
Qed.

Lemma shr_fexp_nonneg (m e : Z) (l : location) :
  0 <= m -> 0 <= shr_m (fst (shr_fexp prec emax m e l)).
Proof.
  intros Hm. unfold shr_fexp, shr.
  assert (H0 : 0 <= shr_m (shr_record_of_loc m l))
    by (destruct l as [|[]]; exact Hm).
  destruct (Z.sub _ e); simpl; try exact H0.
  now apply iter_pos_shr_1_nonneg.
Qed.

Lemma round_nearest_even_nonneg (m : Z) (l : location) :
  0 <= m -> 0 <= round_nearest_even m l.
Proof.
  intros Hm. destruct l as [|[]]; simpl; try lia.
  destruct (Z.even m); lia.
Qed.

(** Rounding a mantissa that is not negative never gives a NaN. *)
Lemma binary_round_aux_not_nan (sx : bool) (mx ex : Z) (lx : location) :
  0 <= mx -> binary_round_aux prec emax sx mx ex lx <> S754_nan.
Proof.
  intros Hm. unfold binary_round_aux.
  pose proof (shr_fexp_nonneg mx ex lx Hm) as H1.
  destruct (shr_fexp prec emax mx ex lx) as [mrs' e']. simpl in H1.
  pose proof (shr_fexp_nonneg
                (round_nearest_even (shr_m mrs') (loc_of_shr_record mrs')) e'
                loc_Exact (round_nearest_even_nonneg _ _ H1)) as H2.
  destruct (shr_fexp prec emax _ e' loc_Exact) as [mrs'' e'']. simpl in H2.
  destruct (shr_m mrs'') as [|m|m]; [discriminate| |lia].
  now destruct (Z.leb e'' (Z.sub emax prec)).
Qed.

Lemma float_of_ratio_not_nan (n : Z) (d : positive) :
  float_of_ratio false n d <> S754_nan.
Proof.
  unfold float_of_ratio. destruct n as [|p|p]; try discriminate.
  unfold SFdiv_core_binary.
  set (e' := Z.min _ _). set (m' := match Z.sub (Z.sub 0 0) e' with
                                    | Z0 => Zpos p
                                    | Zpos _ => Z.shiftl (Zpos p) (Z.sub (Z.sub 0 0) e')
                                    | Zneg _ => Z0 end).
  assert (Hm' : 0 <= m').
  { unfold m'. destruct (Z.sub (Z.sub 0 0) e'); try lia.
    apply Z.shiftl_nonneg. lia. }
  pose proof (Z.div_pos m' (Zpos d) Hm' ltac:(lia)) as Hq.
  unfold Z.div in Hq. destruct (Z.div_eucl m' (Zpos d)) as [q r].
  now apply binary_round_aux_not_nan.
Qed.

Lemma float_of_ratio_infinity (n : Z) (d : positive) (s : bool) :
  float_of_ratio false n d = S754_infinity s -> s = false.
Proof.
  unfold float_of_ratio. destruct n as [|p|p]; try discriminate.
  destruct (SFdiv_core_binary _ _ _ _ _ _) as [[mz ez] lz].
  unfold binary_round_aux.
  destruct (shr_fexp _ _ mz ez lz) as [m1 e1].
  destruct (shr_fexp _ _ _ e1 loc_Exact) as [m2 e2].
  destruct (shr_m m2); try discriminate.
  destruct (Z.leb e2 _); [discriminate|]. congruence.
Qed.

End TimeFactoryMore.

(** X8.  For every float with an integer part [z] and every constructor,
    [time_factory] makes one call of the constructor, with the float, the
    UTC scale and the format Unix exactly when [z >= 10^7] or
    [z <= -10^6], Julian Day in between: the threshold of "more than seven
    characters" of [str(int(f))], the minus sign included.  The outcome of
    that call, an object or the constructor's refusal, is the outcome. *)
Theorem time_factory_format_threshold
    (Time_init : TimeArg -> option string -> string -> Alloc Time)
    (f : Num.float) (z : Z) (next : nat) :
  Num.int_of_float f = Ok z ->
  time_factory Time_init (VFloat f) next =
    Time_init (ArgFloat f)
      (Some (if (10 ^ 7 <=? z) || (z <=? - 10 ^ 6) then "unix" else "jd"))
      "utc" next.
Proof.
  intros H. rewrite (time_factory_float Time_init f z next H).
  now rewrite unix_test.
Qed.

Lemma time_factory_format_threshold_witness :
  time_factory demo_Time (VFloat (S754_finite false 5277987599548416 (-31))) 0%nat =
    (Ok (mkTime 0 (ArgFloat (S754_finite false 5277987599548416 (-31)))
           (Some "jd") "utc"), 1%nat).
Proof.
  exact (time_factory_format_threshold demo_Time
           (S754_finite false 5277987599548416 (-31)) 2457754 0 eq_refl).
Defined.

(** X9.  A string the pattern of line 61 accepts is never handed to the
    autodetecting parser.  It is read as a float that is neither negative
    nor NaN: when the float is finite, the constructor is called once with
    that float, as Unix time exactly when the integer part is at least
    [10^7], and its outcome is the outcome; when the float is infinite (a
    decimal beyond the range of floats) the call ends with
    [OverflowError] before any constructor is called. *)
Theorem time_factory_decimal_string_rule
    (Time_init : TimeArg -> option string -> string -> Alloc Time)
    (s : string) (next : nat) :
  Num.re_match_decimal s = true ->
  exists f, Num.float_of_str s = Ok f /\
    ((exists z, Num.int_of_float f = Ok z /\ 0 <= z /\
        time_factory Time_init (VStr s) next =
          Time_init (ArgFloat f)
            (Some (if 10 ^ 7 <=? z then "unix" else "jd")) "utc" next) \/
     (f = S754_infinity false /\
      time_factory Time_init (VStr s) next =
        (Raise (OverflowError "cannot convert float infinity to integer"), next))).
Proof.
  intros Hm.
  assert (Hf : exists num k, Num.float_of_str s
             = Ok (Num.float_of_ratio false num (Z.to_pos (10 ^ Z.of_nat k)))).
  { unfold Num.float_of_str. rewrite Hm.
    destruct (Num.span_digits 0 0 s) as [[ip n1] r1].
    destruct (Num.span_digits ip 0 (Str.drop 1 r1)) as [[num k] r3]. eauto. }
  destruct Hf as (num & k & Hf).
  set (f := Num.float_of_ratio false num (Z.to_pos (10 ^ Z.of_nat k))) in *.
  exists f. split; [exact Hf|].
  assert (Hs : forall n, time_factory Time_init (VStr s) n
                         = time_factory Time_init (VFloat f) n).
  { intros n. unfold time_factory at 1. now rewrite Hm, Hf. }
  rewrite Hs.
  pose proof (float_of_ratio_not_nan num (Z.to_pos (10 ^ Z.of_nat k))) as Hnan.
  pose proof (float_of_ratio_int num (Z.to_pos (10 ^ Z.of_nat k))) as Hint.
  pose proof (float_of_ratio_infinity num (Z.to_pos (10 ^ Z.of_nat k))) as Hinf.
  fold f in Hnan, Hint, Hinf.
  destruct (Num.int_of_float f) as [z|e] eqn:Hz.
  - left. exists z. pose proof (Hint z eq_refl) as Hz0.
    split; [reflexivity|]. split; [exact Hz0|].
    rewrite (time_factory_float Time_init f z next Hz), unix_test.
    destruct (Z.leb_spec z (- 10 ^ 6)); [lia|]. now rewrite orb_false_r.
  - right. destruct f as [sf|sf| |sf m e0]; try discriminate Hz; [|congruence].
    rewrite (Hinf sf eq_refl). split; reflexivity.
Qed.

Lemma time_factory_decimal_string_rule_witness :
  exists f, Num.float_of_str "1498800000.0" = Ok f.
Proof.
  destruct (time_factory_decimal_string_rule demo_Time "1498800000.0" 0 eq_refl)
    as (f & Hf & _).
  exists f. exact Hf.
Defined.

Section TimeFactoryCases.
Import Num.

Lemma span_digits_suffix (s : string) (acc : Z) (cnt : nat)
    (v : Z) (n : nat) (r : string) :
  span_digits acc cnt s = (v, n, r) -> exists d, s = d +:+ r.
Proof.
  revert acc cnt. induction s as [|c s IH]; intros acc cnt; simpl.
  - intros [= _ _ <-]. now exists EmptyString.
  - destruct (is_digit c).
    + intros H. destruct (IH _ _ H) as [d ->]. now exists (String c d).
    + intros [= _ _ <-]. now exists EmptyString.
Qed.

Lemma no_char_app (c : ascii) (a b : string) :
  StrSpec.no_char c (a +:+ b) = StrSpec.no_char c a && StrSpec.no_char c b.
Proof.
  induction a as [|x a IH]; simpl; [reflexivity|].
  now rewrite IH, andb_assoc.
Qed.

(** The pattern needs a dot. *)
Lemma re_match_decimal_dot (s : string) :
  re_match_decimal s = true -> StrSpec.no_char "." s = false.
Proof.
  unfold re_match_decimal.
  destruct (span_digits 0 0 s) as [[v1 n1] r1] eqn:E1.
  destruct n1 as [|n1]; [discriminate|].
  destruct r1 as [|c r2]; [discriminate|].
  destruct (Ascii.eqb_spec c ".") as [->|Hc].
  - intros _. apply span_digits_suffix in E1 as [d ->].
    rewrite no_char_app. simpl. apply andb_false_r.
  - destruct c as [[] [] [] [] [] [] [] []]; try discriminate.
    now destruct Hc.
Qed.

(** The pattern needs a digit in front. *)
Lemma re_match_decimal_first (c : ascii) (s : string) :
  is_digit c = false -> re_match_decimal (String c s) = false.
Proof. intros H. unfold re_match_decimal. simpl. now rewrite H. Qed.

Variable Time_init : TimeArg -> option string -> string -> Alloc Time.

(** A float given ends in one call of the constructor, on the UTC scale,
    or in the failure of [int(f_itime)] before any call. *)
Lemma time_factory_float_outcome (f : float) (next : nat) :
  (exists fmt, time_factory Time_init (VFloat f) next
               = Time_init (ArgFloat f) (Some fmt) "utc" next) \/
  time_factory Time_init (VFloat f) next =
    (Raise (ValueError "cannot convert float NaN to integer"), next) \/
  time_factory Time_init (VFloat f) next =
    (Raise (OverflowError "cannot convert float infinity to integer"), next).
Proof.
  destruct (int_of_float f) as [z|e] eqn:Hz.
  - left. rewrite (time_factory_float Time_init f z next Hz). eauto.
  - destruct f; try discriminate Hz; auto.
Qed.

Lemma time_factory_str_outcome (s : string) (next : nat) :
  (exists arg fmt, time_factory Time_init (VStr s) next
                   = Time_init arg fmt "utc" next) \/
  time_factory Time_init (VStr s) next =
    (Raise (ValueError "cannot convert float NaN to integer"), next) \/
  time_factory Time_init (VStr s) next =
    (Raise (OverflowError "cannot convert float infinity to integer"), next).
Proof.
  destruct (re_match_decimal s) eqn:Hm.
  - destruct (time_factory_decimal_string Time_init s Hm) as (f & _ & Hs & _).
    rewrite Hs.
    destruct (time_factory_float_outcome f next) as [[fmt H]|[H|H]]; eauto.
  - left. unfold time_factory. rewrite Hm. eauto.
Qed.

End TimeFactoryCases.

(** X10.  A string without a dot is never read as a number: it goes to
    the constructor as it is, with no format (astropy's autodetecting
    parser) and on the UTC scale, and the outcome of that call is the
    outcome.  So does a string that does not start with a digit (a sign,
    a blank).  An integer Julian Day written ["2457754"] is therefore not
    a Julian Day to [time_factory]. *)
Theorem time_factory_not_numeric
    (Time_init : TimeArg -> option string -> string -> Alloc Time)
    (s : string) (next : nat) :
  StrSpec.no_char "." s = true \/
  (exists c s', s = String c s' /\ Num.is_digit c = false) ->
  time_factory Time_init (VStr s) next = Time_init (ArgStr s) None "utc" next.
Proof.
  intros H.
  assert (Hm : Num.re_match_decimal s = false).
  { destruct H as [H|(c & s' & -> & Hc)].
    - destruct (Num.re_match_decimal s) eqn:E; [|reflexivity].
      apply re_match_decimal_dot in E. congruence.
    - now apply re_match_decimal_first. }
  unfold time_factory. now rewrite Hm.
Qed.

Lemma time_factory_not_numeric_witness :
  time_factory demo_Time (VStr "2457754") 0%nat
    = (Ok (mkTime 0 (ArgStr "2457754") None "utc"), 1%nat) /\
  time_factory demo_Time (VStr "-2457754.5") 0%nat
    = (Ok (mkTime 0 (ArgStr "-2457754.5") None "utc"), 1%nat).
Proof.
  split.
  - apply (time_factory_not_numeric demo_Time "2457754" 0). left. reflexivity.
  - apply (time_factory_not_numeric demo_Time "-2457754.5" 0).
    right. eexists _, _. split; reflexivity.
Defined.

(** X11.  [time_factory] raises a [TypeError] of its own exactly on the
    values that are neither a [Time], a float nor a string, with
    [str(itime)] glued to the text of the message; in particular an [int]
    such as [2457754] is rejected.  A [Time] given never ends in
    [TypeError]; for a float or a string the only [TypeError] there can be
    is one the constructor raises in the single call made. *)
Theorem time_factory_type_error
    (Time_init : TimeArg -> option string -> string -> Alloc Time)
    (v : PyVal) (next next' : nat) (m : string) :
  time_factory Time_init v next = (Raise (TypeError m), next') <->
  match v with
  | VNone | VInt _ =>
      m = str_of_other v +:+ "is NOT a valid TIME input" /\ next' = next
  | VFloat _ | VStr _ =>
      exists arg fmt,
        time_factory Time_init v next = Time_init arg fmt "utc" next /\
        Time_init arg fmt "utc" next = (Raise (TypeError m), next')
  | VTime _ => False
  end.
Proof.
  split.
  - destruct v as [|z|f|s|t].
    + intros [= <- <-]. auto.
    + intros [= <- <-]. auto.
    + intros H. destruct (time_factory_float_outcome Time_init f next)
        as [(fmt & Ht)|[Ht|Ht]].
      * exists (ArgFloat f), (Some fmt). split; [exact Ht|]. now rewrite <- Ht.
      * rewrite Ht in H. discriminate H.
      * rewrite Ht in H. discriminate H.
    + intros H. destruct (time_factory_str_outcome Time_init s next)
        as [(arg & fmt & Ht)|[Ht|Ht]].
      * exists arg, fmt. split; [exact Ht|]. now rewrite <- Ht.
      * rewrite Ht in H. discriminate H.
      * rewrite Ht in H. discriminate H.
    + discriminate.
  - destruct v as [|z|f|s|t].
    + intros [-> ->]. reflexivity.
    + intros [-> ->]. reflexivity.
    + intros (arg & fmt & -> & H). exact H.
    + intros (arg & fmt & -> & H). exact H.
    + intros [].
Qed.

Lemma time_factory_type_error_witness :
  time_factory demo_Time (VInt 2457754) 0%nat
    = (Raise (TypeError "2457754is NOT a valid TIME input"), 0%nat).
Proof.
  apply (time_factory_type_error demo_Time (VInt 2457754)). split; reflexivity.
Defined.

(** X12.  [time_factory] calls the constructor at most once.  A [Time]
    given is returned without any call; a value of another type, a NaN and
    an infinity fail before any call, so nothing is built; every other
    outcome is the outcome of one call on the UTC scale.  With a
    constructor that allocates, every success other than a [Time] given is
    therefore a new object, with the next free identity and on the UTC
    scale, and a failure builds nothing. *)
Theorem time_factory_allocation
    (Time_init : TimeArg -> option string -> string -> Alloc Time)
    (v : PyVal) (next next' : nat) (r : Result Time) :
  time_factory Time_init v next = (r, next') ->
  ((exists t, v = VTime t /\ r = Ok t /\ next' = next) \/
   (exists e, r = Raise e /\ next' = next /\
      (e = TypeError (str_of_other v +:+ "is NOT a valid TIME input") \/
       e = ValueError "cannot convert float NaN to integer" \/
       e = OverflowError "cannot convert float infinity to integer")) \/
   (exists arg fmt, Time_init arg fmt "utc" next = (r, next'))) /\
  (allocating Time_init ->
   match r with
   | Ok t => (v = VTime t /\ next' = next) \/
             (time_id t = next /\ time_scale t = "utc" /\ next' = S next)
   | Raise _ => next' = next
   end).
Proof.
  intros H.
  assert (Hcases :
    (exists t, v = VTime t /\ r = Ok t /\ next' = next) \/
    (exists e, r = Raise e /\ next' = next /\
       (e = TypeError (str_of_other v +:+ "is NOT a valid TIME input") \/
        e = ValueError "cannot convert float NaN to integer" \/
        e = OverflowError "cannot convert float infinity to integer")) \/
    (exists arg fmt, Time_init arg fmt "utc" next = (r, next'))).
  { destruct v as [|z|f|s|t].
    - injection H as <- <-. right. left. eauto.
    - injection H as <- <-. right. left. eauto.
    - destruct (time_factory_float_outcome Time_init f next)
        as [(fmt & Ht)|[Ht|Ht]]; rewrite Ht in H.
      + right. right. eauto.
      + injection H as <- <-. right. left. eauto 6.
      + injection H as <- <-. right. left. eauto 6.
    - destruct (time_factory_str_outcome Time_init s next)
        as [(arg & fmt & Ht)|[Ht|Ht]]; rewrite Ht in H.
      + right. right. eauto.
      + injection H as <- <-. right. left. eauto 6.
      + injection H as <- <-. right. left. eauto 6.
    - injection H as <- <-. left. eauto. }
  split; [exact Hcases|].
  intros Halloc.
  destruct Hcases as [(t & -> & -> & ->)|[(e & -> & -> & _)|(arg & fmt & Hc)]].
  - auto.
  - reflexivity.
  - apply Halloc in Hc. destruct r as [t|e]; [right|]; exact Hc.
Qed.

Lemma time_factory_allocation_witness :
  (time_id (mkTime 5 (ArgStr "2017-06-30T16:13:29") None "utc") = 5%nat /\
   time_scale (mkTime 5 (ArgStr "2017-06-30T16:13:29") None "utc") = "utc" /\
   6%nat = 6%nat).
Proof.
  assert (Halloc : allocating demo_Time).
  { intros arg format scale next r next' [= <- <-]. auto. }
  destruct (time_factory_allocation demo_Time (VStr "2017-06-30T16:13:29") 5 6
              (Ok (mkTime 5 (ArgStr "2017-06-30T16:13:29") None "utc")) eq_refl)
    as [_ H].
  destruct (H Halloc) as [[H' _]|H'].
  - discriminate H'.
  - exact H'.
Defined.

(** * Further properties of the rounding *)

Section RoundingMore.

(** The check on each integer from -60 to -1. *)
Lemma rounding_factor_table_neg :
  Forall (fun z =>
            rounding_factor_check (VInt z) =
              (if 60 mod z =? 0 then Ok z else Raise (TypeError rounding_msg)))
         (seqZ (-60) 60).
Proof. vm_compute seqZ. repeat constructor. Qed.

(** For the divisors of 60 of either sign, [24 * 3600 / n] is a finite
    float with the sign of [n]. *)
Lemma day_factor_table :
  Forall (fun z =>
            60 mod z <> 0 \/
            exists m e, Num.int_truediv (24 * 3600) z
                        = Ok (S754_finite (z <? 0) m e))
         (seqZ (-60) 60 ++ seqZ 1 60).
Proof.
  vm_compute seqZ. cbn [app].
  repeat (constructor;
          [first [ left; discriminate | right; eexists _, _; reflexivity ]|]).
  constructor.
Qed.

Lemma divisor_of_60_range (z : Z) :
  (z | 60) -> z ∈ seqZ (-60) 60 ++ seqZ 1 60.
Proof.
  intros Hd.
  assert (z <> 0) by (intros ->; destruct Hd as [k Hk]; lia).
  assert (Z.abs z <= 60).
  { apply Z.divide_abs_l in Hd. apply Z.divide_pos_le in Hd; lia. }
  rewrite elem_of_app, !elem_of_seqZ. lia.
Qed.

Lemma rounding_factor_accepts (z : Z) :
  (z | 60) -> rounding_factor_check (VInt z) = Ok z.
Proof.
  intros Hd. pose proof (divisor_of_60_range z Hd) as Hr.
  assert (Hz : z <> 0) by (intros ->; destruct Hd as [k Hk]; lia).
  apply (Z.mod_divide 60 z Hz) in Hd.
  apply elem_of_app in Hr as [Hr|Hr].
  - pose proof rounding_factor_table_neg as Ht. rewrite Forall_forall in Ht.
    rewrite (Ht z Hr), Hd. reflexivity.
  - pose proof rounding_factor_table as Ht. rewrite Forall_forall in Ht.
    rewrite (proj1 (Ht z Hr)), Hd. reflexivity.
Qed.

Lemma rounding_factor_accepted_divides (z r : Z) :
  rounding_factor_check (VInt z) = Ok r -> r = z /\ (z | 60).
Proof.
  intros H.
  assert (Hr : r = z).
  { unfold rounding_factor_check in H.
    destruct (Num.float_div_int float_60 z) as [q|]; [|discriminate].
    cbn [mbind Result_bind] in H.
    destruct (Num.int_of_float q) as [k|]; [|discriminate].
    cbn [mbind Result_bind] in H.
    destruct (negb (z * k =? 60)); [discriminate|]. now injection H. }
  split; [exact Hr|]. subst r.
  destruct (Z_le_gt_dec (Z.abs z) 60) as [Hle|Hgt].
  - destruct (Z.eq_dec z 0) as [->|Hz]; [discriminate H|].
    apply (Z.mod_divide 60 z Hz).
    assert (Hin : z ∈ seqZ (-60) 60 \/ z ∈ seqZ 1 60)
      by (rewrite !elem_of_seqZ; lia).
    destruct Hin as [Hin|Hin].
    + pose proof rounding_factor_table_neg as Ht. rewrite Forall_forall in Ht.
      rewrite (Ht z Hin) in H.
      destruct (Z.eqb_spec (60 mod z) 0); [assumption|discriminate].
    + pose proof rounding_factor_table as Ht. rewrite Forall_forall in Ht.
      rewrite (proj1 (Ht z Hin)) in H.
      destruct (Z.eqb_spec (60 mod z) 0); [assumption|discriminate].
  - pose proof (rounding_factor_large z ltac:(lia)) as Hl.
    rewrite H in Hl. discriminate.
Qed.

End RoundingMore.

(** X13.  The check of lines 87-88 lets an integer through exactly when it
    divides 60, with either sign: the factors accepted are the twelve
    divisors 1, 2, 3, 4, 5, 6, 10, 12, 15, 20, 30, 60 and their opposites,
    and a factor accepted is handed on unchanged. *)
Theorem rounding_factor_accepted_iff (z r : Z) :
  rounding_factor_check (VInt z) = Ok r <->
  r = z /\ Z.abs z ∈ valid_rounding_factors.
Proof.
  assert (Hv : (z | 60) <-> Z.abs z ∈ valid_rounding_factors).
  { rewrite <- Z.divide_abs_l. split.
    - intros Hd.
      assert (Z.abs z <> 0) by (intros E; rewrite E in Hd; destruct Hd as [k Hk]; lia).
      assert (Z.abs z <= 60) by (apply Z.divide_pos_le in Hd; lia).
      apply (rounding_factor_small (Z.abs z)); [lia | exact Hd].
    - intros Hin. apply (rounding_factor_small (Z.abs z)); [|exact Hin].
      unfold valid_rounding_factors in Hin.
      rewrite !elem_of_cons, elem_of_nil in Hin. lia. }
  rewrite <- Hv. split.
  - apply rounding_factor_accepted_divides.
  - intros [-> Hd]. now apply rounding_factor_accepts.
Qed.

Lemma rounding_factor_accepted_iff_witness :
  rounding_factor_check (VInt (-15)) = Ok (-15).
Proof.
  apply rounding_factor_accepted_iff. split; [reflexivity|].
  vm_compute Z.abs. unfold valid_rounding_factors.
  rewrite !elem_of_cons. tauto.
Defined.

(** X14.  A [Time] whose [jd2] is zero is left where it is: for every
    factor the check accepts, [round_to_nearest_n_seconds] subtracts a
    [TimeDelta] of exactly zero seconds, [n] times; no constructor is
    called for a [Time] given. *)
Theorem round_zero_day_fraction
    (Time_init : TimeArg -> option string -> string -> Alloc Time)
    (jd2 : Time -> Num.float) (Time_sub : Time -> TimeDelta -> Alloc Time)
    (t : Time) (z : Z) (s : bool) (next : nat) :
  (z | 60) ->
  jd2 t = S754_zero s ->
  round_to_nearest_n_seconds Time_init jd2 Time_sub (VTime t) (VInt z) next =
    Time_sub t (TimeDelta_mul
                  (TimeDelta_new (S754_zero (xorb s (z <? 0))) "sec") z) next.
Proof.
  intros Hd Hj.
  pose proof (rounding_factor_accepts z Hd) as Hc.
  pose proof day_factor_table as Ht. rewrite Forall_forall in Ht.
  destruct (Ht z (divisor_of_60_range z Hd)) as [Hm|(m & e & Hf)].
  - exfalso. apply Hm. apply Z.mod_divide; [|exact Hd].
    intros ->. destruct Hd as [k Hk]. lia.
  - unfold round_to_nearest_n_seconds, lift, mbind, Alloc_bind.
    rewrite Hc. cbn [time_factory mret Alloc_ret]. rewrite Hf, Hj.
    cbn [SFmul Num.round]. cbv [Num.float_of_int binary_normalize].
    cbn [SFsub]. now destruct (xorb s (z <? 0)).
Qed.

Lemma round_zero_day_fraction_witness :
  round_to_nearest_n_seconds demo_Time (fun _ => S754_zero false)
    (fun t td next => (Ok (mkTime next (time_arg t) (time_format t) (time_scale t)),
                       S next))
    (VTime (mkTime 0 (ArgStr "2017-06-30T12:00:00") None "utc")) (VInt 30) 1%nat
  = (Ok (mkTime 1 (ArgStr "2017-06-30T12:00:00") None "utc"), 2%nat).
Proof.
  rewrite (round_zero_day_fraction _ _ _ _ 30 false).
  - reflexivity.
  - exists 2. reflexivity.
  - reflexivity.
Defined.

(** * Further properties of the file discovery *)

Section SortMore.

#[export] Instance str_le_antisym : AntiSymm (=) str_le.
Proof.
  intros a b. unfold str_le. rewrite !Is_true_true. apply String.leb_antisym.
Qed.

(** [sorted] depends on the elements only, not on their order. *)
Lemma sorted_perm (l l' : list string) : l ≡ₚ l' -> sorted l = sorted l'.
Proof.
  intros Hp. apply (Sorted_unique str_le).
  - apply Sorted_merge_sort. apply _.
  - apply Sorted_merge_sort. apply _.
  - now rewrite !sorted_Permutation.
Qed.

Lemma concat_map_pointwise (f g : string -> list string) (es : list string) :
  (forall e, f e ≡ₚ g e) -> concat (map f es) ≡ₚ concat (map g es).
Proof.
  intros Hfg. induction es as [|e es IH]; simpl; [reflexivity|].
  now rewrite Hfg, IH.
Qed.

Lemma concat_map_perm (f g : string -> list string) (es es' : list string) :
  (forall e, f e ≡ₚ g e) -> es ≡ₚ es' ->
  concat (map f es) ≡ₚ concat (map g es').
Proof.
  intros Hfg Hp. rewrite (concat_map_pointwise f g es Hfg). clear Hfg.
  induction Hp as [|e es es' _ IH|e1 e2 es|es1 es2 es3 _ IH1 _ IH2]; simpl.
  - reflexivity.
  - now rewrite IH.
  - rewrite !List.app_assoc.
    now rewrite (Permutation_app_comm (g e2) (g e1)).
  - now rewrite IH1.
Qed.

End SortMore.

(** X15.  The result of [resolve_glob] depends neither on the order in
    which the extensions are listed nor on the order in which the file
    system lists the matches: two runs that see the same matches, in any
    order, return the same list.  A single extension given as a string
    behaves as the list holding that extension. *)
Theorem resolve_glob_order_independent
    (glob glob' : string -> bool -> list string)
    (es es' : list string) (directory prefix suffix : string) :
  (forall pathname, glob pathname false ≡ₚ glob' pathname false) ->
  es ≡ₚ es' ->
  resolve_glob glob (ExtList es) directory prefix suffix =
    resolve_glob glob' (ExtList es') directory prefix suffix /\
  forall e, resolve_glob glob (ExtStr e) directory prefix suffix =
            resolve_glob glob' (ExtList [e]) directory prefix suffix.
Proof.
  intros Hg Hp. split.
  - rewrite !resolve_glob_eq. apply sorted_perm.
    apply concat_map_perm; [|exact Hp]. intros e. apply Hg.
  - intros e. rewrite !resolve_glob_eq. apply sorted_perm.
    apply concat_map_perm; [|reflexivity]. intros e0. apply Hg.
Qed.

Lemma resolve_glob_order_independent_witness :
  resolve_glob demo_glob (ExtList ["NEF"; "CR2"]) "raw" EmptyString "01" =
  resolve_glob demo_glob (ExtList ["CR2"; "NEF"]) "raw" EmptyString "01".
Proof.
  apply (resolve_glob_order_independent demo_glob demo_glob).
  - reflexivity.
  - apply Permutation_swap.
Defined.

(** X16.  [getDfnstationConfigFile] gives the same answer and the same
    warning whatever the order in which the file system lists the matching
    files. *)
Theorem config_file_order_independent
    (glob glob' : string -> bool -> list string) (directory : string) :
  (forall pathname, glob pathname false ≡ₚ glob' pathname false) ->
  getDfnstationConfigFile glob directory = getDfnstationConfigFile glob' directory.
Proof.
  intros Hg. unfold getDfnstationConfigFile.
  assert (resolve_glob glob (ExtStr "cfg") directory EmptyString "dfnstation" =
          resolve_glob glob' (ExtStr "cfg") directory EmptyString "dfnstation") as ->;
    [|reflexivity].
  rewrite !resolve_glob_eq. apply sorted_perm.
  apply concat_map_perm; [|reflexivity]. intros e. apply Hg.
Qed.

Lemma config_file_order_independent_witness :
  getDfnstationConfigFile (fun p r => rev (demo_glob p r)) "backup" =
  getDfnstationConfigFile demo_glob "backup".
Proof.
  apply config_file_order_independent.
  intros p. symmetry. apply Permutation_rev.
Defined.

Lemma path_join_longer (a b : string) :
  a <> EmptyString -> Str.startswith b "/" = false ->
  (Str.len b < Str.len (path_join a b))%nat.
Proof.
  intros Ha Hb. unfold path_join. rewrite Hb.
  destruct a as [|c a]; [contradiction|].
  destruct (Str.ends_with_char (String c a) "/");
    rewrite !StrFacts.len_app; simpl; lia.
Qed.

(** X17.  What [getDfnstationConfigFile] returns is the empty string (only
    when nothing matched), the bare name [dfnstation.cfg] (only when the
    standard file is among the matches), or one of the matched paths.  For a
    directory that is not the empty string the bare name is not the matched
    path of the standard file: the directory is dropped on that branch and
    kept on the other. *)
Theorem config_file_result
    (glob : string -> bool -> list string) (directory : string) :
  let found := glob (path_join directory "*dfnstation*.cfg") false in
  exists v, fst (getDfnstationConfigFile glob directory) = Ok v /\
    ((v = EmptyString /\ found = []) \/
     (v = stdcfgfilename /\ path_join directory stdcfgfilename ∈ found /\
      (directory <> EmptyString -> v <> path_join directory stdcfgfilename)) \/
     (v ∈ found /\ path_join directory stdcfgfilename ∉ found)).
Proof.
  cbv zeta. unfold getDfnstationConfigFile.
  change (resolve_glob glob (ExtStr "cfg") directory EmptyString "dfnstation")
    with (sorted (glob (path_join directory "*dfnstation*.cfg") false)).
  set (found := glob (path_join directory "*dfnstation*.cfg") false).
  assert (Hin : forall x, x ∈ sorted found <-> x ∈ found)
    by (intros x; now rewrite sorted_Permutation).
  case_bool_decide as Hstd.
  - exists stdcfgfilename. split; [reflexivity|]. right. left.
    split; [reflexivity|]. split; [now apply Hin|].
    intros Hd E.
    pose proof (path_join_longer directory stdcfgfilename Hd eq_refl) as Hl.
    rewrite <- E in Hl. lia.
  - destruct (sorted found) as [|c cs] eqn:E.
    + exists EmptyString. split; [reflexivity|]. left.
      split; [reflexivity|]. now apply sorted_nil.
    + exists c. split; [reflexivity|]. right. right. split.
      * apply Hin. now left.
      * intros H. now apply Hstd, Hin.
Qed.

Lemma config_file_result_witness :
  exists v, fst (getDfnstationConfigFile demo_glob "station") = Ok v.
Proof.
  destruct (config_file_result demo_glob "station") as (v & Hv & _).
  exists v. exact Hv.
Defined.

Section FindMore.
Import Str StrSpec StrFacts.

Lemma partition_char_before (c : ascii) (s b a : string) :
  partition (String c EmptyString) s = Some (b, a) -> no_char c b = true.
Proof.
  revert b a. induction s as [|d s IH]; intros b a; simpl.
  - discriminate.
  - rewrite andb_true_r.
    destruct (Ascii.eqb c d) eqn:E.
    + intros [= <- _]. reflexivity.
    + destruct (partition (String c EmptyString) s) as [[b0 a0]|]; [|discriminate].
      intros [= <- _]. simpl. now rewrite E, (IH b0 a0).
Qed.

Lemma partition_char_none (c : ascii) (s : string) :
  partition (String c EmptyString) s = None -> no_char c s = true.
Proof.
  induction s as [|d s IH]; simpl; [reflexivity|].
  rewrite andb_true_r.
  destruct (Ascii.eqb c d); [discriminate|].
  destruct (partition (String c EmptyString) s) as [[b0 a0]|]; [discriminate|].
  intros _. now rewrite IH.
Qed.

(** The pieces of a split on one character do not hold that character. *)
Lemma split_fuel_pieces (c : ascii) (fuel : nat) (s : string) :
  (len s < fuel)%nat ->
  Forall (fun p => no_char c p = true) (split_fuel fuel (String c EmptyString) s).
Proof.
  revert s. induction fuel as [|fuel IH]; intros s Hf; [lia|]. simpl.
  destruct (partition (String c EmptyString) s) as [[b a]|] eqn:E.
  - constructor; [eapply partition_char_before, E|].
    apply IH. apply partition_len in E. simpl in E. lia.
  - constructor; [now apply partition_char_none | constructor].
Qed.

Lemma filter_head_split {A} (f : A -> bool) (l : list A) (r : A) (rs : list A) :
  List.filter f l = r :: rs ->
  exists pre post, l = pre ++ r :: post /\
                   Forall (fun x => f x = false) pre /\ f r = true.
Proof.
  induction l as [|x l IH]; simpl; [discriminate|].
  destruct (f x) eqn:E.
  - intros [= -> _]. exists [], l. auto.
  - intros H. destruct (IH H) as (pre & post & -> & Hpre & Hr).
    exists (x :: pre), post. auto.
Qed.

End FindMore.

(** X18.  Whatever the [find] run prints, a path returned by
    [find_log_file] is the first line of that output which contains the
    suffix [system_number + suffix + "." + extension] and starts with
    [basedir]; it is a whole line (it holds no newline) and it is not
    empty.  Lines before it that fail either test are skipped. *)
Theorem find_log_file_result
    (check_output : list string -> Result string)
    (basedir suffix extension system_number out r : string) :
  let extended_suffix := system_number +:+ suffix +:+ "." +:+ extension in
  check_output ["find"; basedir; "-type"; "f"; "-name"; "*" +:+ extended_suffix]
    = Ok out ->
  find_log_file check_output basedir suffix extension system_number = Ok r ->
  Str.contains extended_suffix r = true /\
  Str.startswith r basedir = true /\
  StrSpec.no_char "010" r = true /\
  r <> EmptyString /\
  exists pre post,
    StrSpec.split_list newline out = pre ++ r :: post /\
    Forall (fun e => Str.contains extended_suffix e && Str.startswith e basedir = false)
           pre.
Proof.
  intros ext Hout. unfold find_log_file. fold ext. rewrite Hout.
  cbn [mbind Result_bind].
  rewrite StrFacts.split_ok by (simpl; lia). cbn [mbind Result_bind].
  destruct (List.filter _ _) as [|x xs] eqn:Hf; [discriminate|].
  cbn. intros [= ->].
  destruct (filter_head_split _ _ _ _ Hf) as (pre & post & Hl & Hpre & Hr).
  apply andb_prop in Hr as [Hc Hs].
  assert (Hn : StrSpec.no_char "010" r = true).
  { pose proof (split_fuel_pieces "010" (S (Str.len out)) out ltac:(lia)) as Hp.
    change (Str.split_fuel (S (Str.len out)) (String "010" EmptyString) out)
      with (StrSpec.split_list newline out) in Hp.
    rewrite Hl in Hp. apply Forall_app in Hp as [_ Hp].
    now apply Forall_cons in Hp as [Hp _]. }
  repeat split; try assumption.
  - intros ->. rewrite StrFacts.contains_nil in Hc; [discriminate|].
    unfold ext. rewrite !StrFacts.len_app. simpl. lia.
  - eauto.
Qed.

Lemma find_log_file_result_witness :
  Str.startswith "/data/2017/2017-06-30_DFNSMALL15_log_interval.txt" "/data" = true /\
  StrSpec.no_char "010" "/data/2017/2017-06-30_DFNSMALL15_log_interval.txt" = true.
Proof.
  destruct (find_log_file_result demo_find "/data" "_log_interval" "txt" "DFNSMALL15"
              (find_output ["/data/2017/2017-06-30_DFNSMALL15_log_interval.txt";
                            "/data/2016/2016-01-02_DFNSMALL15_log_interval.txt"])
              "/data/2017/2017-06-30_DFNSMALL15_log_interval.txt")
    as (_ & Hs & Hn & _).
  - reflexivity.
  - vm_compute. reflexivity.
  - split; assumption.
Defined.

(** X19.  [find_log_file] fails in two ways only: it passes on the failure
    of the [find] run, or, when the run succeeds, it raises
    [FileNotFoundError] exactly when no line of the output both contains the
    suffix and starts with [basedir].  The indexing of line 153 never
    fails. *)
Theorem find_log_file_errors
    (check_output : list string -> Result string)
    (basedir suffix extension system_number : string) (e : PyExc) :
  let extended_suffix := system_number +:+ suffix +:+ "." +:+ extension in
  let run := check_output
               ["find"; basedir; "-type"; "f"; "-name"; "*" +:+ extended_suffix] in
  find_log_file check_output basedir suffix extension system_number = Raise e <->
  run = Raise e \/
  (e = FileNotFoundError "Could not locate log file" /\
   exists out, run = Ok out /\
     Forall (fun l => Str.contains extended_suffix l && Str.startswith l basedir = false)
            (StrSpec.split_list newline out)).
Proof.
  intros ext run. unfold find_log_file. fold ext. fold run.
  destruct run as [out|e0]; cbn [mbind Result_bind].
  - rewrite StrFacts.split_ok by (simpl; lia). cbn [mbind Result_bind].
    set (test := fun l => Str.contains ext l && Str.startswith l basedir).
    assert (Hnil : List.filter test (StrSpec.split_list newline out) = [] <->
                   Forall (fun l => test l = false) (StrSpec.split_list newline out)).
    { generalize (StrSpec.split_list newline out). intros l.
      induction l as [|x l IH]; simpl.
      - split; [constructor | reflexivity].
      - destruct (test x) eqn:E; split.
        + discriminate.
        + intros H. apply Forall_cons in H as [H _]. congruence.
        + intros H. constructor; [exact E | now apply IH].
        + intros H. apply Forall_cons in H as [_ H]. now apply IH. }
    destruct (List.filter test _) as [|x xs] eqn:Hf; cbn.
    + split.
      * intros [= <-]. right. split; [reflexivity|].
        exists out. split; [reflexivity|]. now apply Hnil.
      * intros [[=]|[-> _]]. reflexivity.
    + split; [discriminate|].
      intros [[=]|[_ (out' & [= <-] & Hall)]].
      apply Hnil in Hall. discriminate Hall.
  - split.
    + intros [= <-]. now left.
    + intros [[= <-]|[_ (out & [=] & _)]]. reflexivity.
Qed.

Lemma find_log_file_errors_witness :
  find_log_file demo_find "/elsewhere" "_log_interval" "txt" "DFNSMALL15"
    = Raise (CalledProcessError 1).
Proof.
  apply (find_log_file_errors demo_find "/elsewhere" "_log_interval" "txt" "DFNSMALL15").
  left. reflexivity.
Defined.

Section PatternFacts.
Import Num Str StrSpec StrFacts.

Lemma span_digits_inv (s : string) (acc : Z) (cnt : nat)
    (v : Z) (n : nat) (r : string) :
  span_digits acc cnt s = (v, n, r) ->
  exists d, s = d +:+ r /\ all_digits d = true /\ n = (cnt + len d)%nat /\
            no_digit_ahead r = true.
Proof.
  revert acc cnt. induction s as [|c s IH]; intros acc cnt; simpl.
  - intros [= _ <- <-]. exists EmptyString. simpl. auto with lia.
  - destruct (is_digit c) eqn:Hc.
    + intros H. destruct (IH _ _ H) as (d & -> & Hd & -> & Hr).
      exists (String c d). simpl. rewrite Hc, Hd. auto with lia.
    + intros [= _ <- <-]. exists EmptyString. simpl. rewrite Hc. auto with lia.
Qed.

Lemma span_digits_app (d r : string) (acc : Z) (cnt : nat) :
  all_digits d = true -> no_digit_ahead r = true ->
  exists v, span_digits acc cnt (d +:+ r) = (v, (cnt + len d)%nat, r).
Proof.
  revert acc cnt. induction d as [|c d IH]; intros acc cnt Hd Hr; simpl.
  - exists acc. rewrite Nat.add_0_r. destruct r as [|x r]; [reflexivity|].
    simpl in Hr. simpl. apply negb_true_iff in Hr. now rewrite Hr.
  - simpl in Hd. apply andb_prop in Hd as [Hc Hd]. rewrite Hc.
    destruct (IH (10 * acc + digit_val c) (S cnt) Hd Hr) as [v Hv].
    exists v. rewrite Hv. f_equal. f_equal. lia.
Qed.

Lemma len_pos (s : string) : (0 < len s)%nat <-> s <> EmptyString.
Proof. destruct s; simpl; split; (congruence || lia). Qed.

End PatternFacts.

(** X20.  The strings that the pattern of line 61 takes for numbers are
    exactly those made of one or more digits, a dot, and one or more digits,
    possibly followed by one final newline.  No sign, no exponent, no blank,
    and neither ["1."] nor [".5"]. *)
Theorem re_match_decimal_iff (s : string) :
  Num.re_match_decimal s = true <->
  exists d1 d2,
    all_digits d1 = true /\ all_digits d2 = true /\
    d1 <> EmptyString /\ d2 <> EmptyString /\
    (s = d1 +:+ "." +:+ d2 \/ s = d1 +:+ "." +:+ d2 +:+ newline).
Proof.
  split.
  - unfold Num.re_match_decimal.
    destruct (Num.span_digits 0 0 s) as [[v1 n1] r1] eqn:E1.
    apply span_digits_inv in E1 as (d1 & -> & Hd1 & -> & _).
    destruct (0 + Str.len d1)%nat as [|n1] eqn:Hn1; [discriminate|].
    destruct r1 as [|c r2]; [discriminate|].
    destruct (Ascii.eqb_spec c ".") as [->|Hc];
      [|destruct c as [[] [] [] [] [] [] [] []]; try discriminate; now destruct Hc].
    destruct (Num.span_digits 0 0 r2) as [[v2 n2] r3] eqn:E2.
    apply span_digits_inv in E2 as (d2 & -> & Hd2 & -> & _).
    destruct (0 + Str.len d2)%nat as [|n2] eqn:Hn2; [discriminate|].
    intros H. exists d1, d2.
    assert (d1 <> EmptyString) by (apply len_pos; lia).
    assert (d2 <> EmptyString) by (apply len_pos; lia).
    repeat split; try assumption.
    destruct r3 as [|x r4].
    + left. now rewrite StrFacts.sapp_nil_r.
    + right. destruct r4; [|destruct x as [[] [] [] [] [] [] [] []]; discriminate].
      destruct (Ascii.eqb_spec x "010") as [->|Hx]; [reflexivity|].
      destruct x as [[] [] [] [] [] [] [] []]; try discriminate. now destruct Hx.
  - intros (d1 & d2 & Hd1 & Hd2 & Hn1 & Hn2 & Hs).
    apply len_pos in Hn1, Hn2. unfold Num.re_match_decimal.
    assert (Hs' : exists r3, s = d1 +:+ String "." (d2 +:+ r3) /\
                             (r3 = EmptyString \/ r3 = newline)).
    { destruct Hs as [->| ->].
      - exists EmptyString. rewrite StrFacts.sapp_nil_r. auto.
      - exists newline. auto. }
    destruct Hs' as (r3 & -> & Hr3).
    destruct (span_digits_app d1 (String "." (d2 +:+ r3)) 0 0 Hd1 eq_refl) as [v1 ->].
    destruct (0 + Str.len d1)%nat eqn:E1; [lia|].
    assert (Hno : no_digit_ahead r3 = true) by (destruct Hr3 as [->| ->]; reflexivity).
    destruct (span_digits_app d2 r3 0 0 Hd2 Hno) as [v2 ->].
    destruct (0 + Str.len d2)%nat eqn:E2; [lia|].
    destruct Hr3 as [->| ->]; reflexivity.
Qed.

Lemma re_match_decimal_iff_witness :
  Num.re_match_decimal "2457754.5" = true.
Proof.
  apply re_match_decimal_iff. exists "2457754", "5".
  repeat split; try discriminate. now left.
Defined.
